(** * Lao-Chinese document translator: the workflow reducer, the translate
      handler and the bilingual export of [App.tsx]

    The development embeds the state type and [appReducer] of the
    application component, the asynchronous handlers that dispatch into
    it ([handleFileSelect], [handleTextChange], [handleTranslate]), the
    enabling conditions the rendered controls put on those handlers, and
    the bilingual composition of [handleDownload].

    JavaScript strings are modelled as [string] (sequences of 8-bit code
    units; a literal outside ASCII stands for its UTF-8 bytes).  String
    concatenation, emptiness and equality, which is all the reducer and
    the handlers use, do not depend on that choice. *)

From Stdlib Require Import String Ascii List Bool Arith Lia.
From Stdlib Require Import DecimalString.
Import ListNotations.
Open Scope string_scope.

(** ** Values imported from [./types] *)

(** Modelled from the spec: the enum [TranslationDirection] of [types.ts],
    which is not among the sources; the two members are the ones
    [App.tsx] and [LanguageSelector.tsx] name. *)
Inductive TranslationDirection : Type :=
  | LaoToChinese
  | ChineseToLao.

(** ** State *)

Module Status.
Inductive t : Type := idle | parsing | ready | translating | complete | error.

Definition eqb (a b : t) : bool :=
  match a, b with
  | idle, idle | parsing, parsing | ready, ready
  | translating, translating | complete, complete | error, error => true
  | _, _ => false
  end.
End Status.

Module DownloadMode.
Inductive t : Type := translation | bilingual.
End DownloadMode.

Module InputMode.
Inductive t : Type := upload | text.
End InputMode.

(** The browser's [File]; the component reads its [name] only. *)
Record File : Type := mkFile { name : string }.

Record AppState : Type := mkAppState {
  status : Status.t;
  file : option File;
  fileContent : string;
  direction : TranslationDirection;
  translatedText : string;
  error : option string;
  anonymize : bool;
  downloadMode : DownloadMode.t;
  inputMode : InputMode.t
}.

Inductive AppAction : Type :=
  | SET_INPUT_MODE (payload : InputMode.t)
  | START_PARSING (payload : File)
  | PARSE_SUCCESS (payload : string)
  | SET_TEXT_CONTENT (payload : string)
  | SET_ERROR (payload : string)
  | TRANSLATE
  | TRANSLATION_CHUNK (payload : string)
  | TRANSLATION_COMPLETE
  | RESET
  | SET_DIRECTION (payload : TranslationDirection)
  | SET_ANONYMIZE (payload : bool)
  | SET_DOWNLOAD_MODE (payload : DownloadMode.t).

Definition initialState : AppState :=
  {| status := Status.idle;
     file := None;
     fileContent := "";
     direction := LaoToChinese;
     translatedText := "";
     error := None;
     anonymize := true;
     downloadMode := DownloadMode.translation;
     inputMode := InputMode.upload |}.

(** JavaScript truthiness of a string: every string but the empty one. *)
Definition truthy (s : string) : bool := negb (s =? "").

(** [appReducer]: one case per action type; an object spread
    [{...base, f: v}] is the record [base] with the listed fields
    replaced. *)
Definition appReducer (state : AppState) (action : AppAction) : AppState :=
  match action with
  | SET_INPUT_MODE payload =>
      {| status := status state; file := file state;
         fileContent := fileContent state; direction := direction state;
         translatedText := translatedText state; error := error state;
         anonymize := anonymize state; downloadMode := downloadMode state;
         inputMode := payload |}
  | START_PARSING payload =>
      {| status := Status.parsing; file := Some payload;
         fileContent := fileContent initialState;
         direction := direction state;
         translatedText := translatedText initialState;
         error := error initialState;
         anonymize := anonymize state;
         downloadMode := downloadMode initialState;
         inputMode := InputMode.upload |}
  | PARSE_SUCCESS payload =>
      {| status := Status.ready; file := file state;
         fileContent := payload; direction := direction state;
         translatedText := translatedText state; error := error state;
         anonymize := anonymize state; downloadMode := downloadMode state;
         inputMode := inputMode state |}
  | SET_TEXT_CONTENT payload =>
      {| status := if truthy payload then Status.ready else Status.idle;
         file := file initialState;
         fileContent := payload;
         direction := direction state;
         translatedText := translatedText initialState;
         error := error initialState;
         anonymize := anonymize state;
         downloadMode := downloadMode initialState;
         inputMode := InputMode.text |}
  | SET_ERROR payload =>
      {| status := Status.error; file := file state;
         fileContent := fileContent state; direction := direction state;
         translatedText := translatedText state; error := Some payload;
         anonymize := anonymize state; downloadMode := downloadMode state;
         inputMode := inputMode state |}
  | TRANSLATE =>
      {| status := Status.translating; file := file state;
         fileContent := fileContent state; direction := direction state;
         translatedText := ""; error := None;
         anonymize := anonymize state; downloadMode := downloadMode state;
         inputMode := inputMode state |}
  | TRANSLATION_CHUNK payload =>
      {| status := status state; file := file state;
         fileContent := fileContent state; direction := direction state;
         translatedText := translatedText state ++ payload;
         error := error state;
         anonymize := anonymize state; downloadMode := downloadMode state;
         inputMode := inputMode state |}
  | TRANSLATION_COMPLETE =>
      {| status := Status.complete; file := file state;
         fileContent := fileContent state; direction := direction state;
         translatedText := translatedText state; error := error state;
         anonymize := anonymize state; downloadMode := downloadMode state;
         inputMode := inputMode state |}
  | RESET =>
      {| status := status initialState; file := file initialState;
         fileContent := fileContent initialState;
         direction := direction state;
         translatedText := translatedText initialState;
         error := error initialState;
         anonymize := anonymize state;
         downloadMode := downloadMode state;
         inputMode := inputMode initialState |}
  | SET_DIRECTION payload =>
      {| status := status state; file := file state;
         fileContent := fileContent state; direction := payload;
         translatedText := translatedText state; error := error state;
         anonymize := anonymize state; downloadMode := downloadMode state;
         inputMode := inputMode state |}
  | SET_ANONYMIZE payload =>
      {| status := status state; file := file state;
         fileContent := fileContent state; direction := direction state;
         translatedText := translatedText state; error := error state;
         anonymize := payload; downloadMode := downloadMode state;
         inputMode := inputMode state |}
  | SET_DOWNLOAD_MODE payload =>
      {| status := status state; file := file state;
         fileContent := fileContent state; direction := direction state;
         translatedText := translatedText state; error := error state;
         anonymize := anonymize state; downloadMode := payload;
         inputMode := inputMode state |}
  end.

(** The state after a sequence of [dispatch] calls, oldest first. *)
Definition dispatchAll (state : AppState) (actions : list AppAction) : AppState :=
  fold_left appReducer actions state.

(** ** The translation stream seen by [handleTranslate] *)

(** A chunk of the stream.  [blockReason] stands for
    [chunk.promptFeedback?.blockReason]: [None] when [promptFeedback] or
    its [blockReason] is absent. *)
Record Chunk : Type := mkChunk {
  text : string;
  blockReason : option string
}.

(** A value raised by [throw]: an [Error] object with its message, or
    anything else. *)
Inductive Thrown : Type :=
  | ErrorObject (message : string)
  | NonError.

(** What [await translateDocumentStream(..)] and the iteration deliver:
    the chunks yielded, in order, and then either the normal end
    ([failure = None]) or a rejection ([failure = Some v]).  A call
    that rejects before any chunk has [chunks = nil]. *)
Record Stream : Type := mkStream {
  chunks : list Chunk;
  failure : option Thrown
}.

(** [err instanceof Error ? err.message : fallback] *)
Definition messageOr (err : Thrown) (fallback : string) : string :=
  match err with
  | ErrorObject message => message
  | NonError => fallback
  end.

Definition blockedMessage (reason : string) : string :=
  "Translation was blocked due to: " ++ reason
    ++ ". This may be due to the document's content.".

(** The condition [chunk.promptFeedback?.blockReason] of the loop body. *)
Definition isBlocked (chunk : Chunk) : bool :=
  match blockReason chunk with
  | Some reason => truthy reason
  | None => false
  end.

(** One turn of the [for await] body: it either throws or dispatches. *)
Inductive Turn : Type :=
  | Raised (err : Thrown)
  | Dispatched (action : AppAction).

Definition onChunk (firstChunk : bool) (chunk : Chunk) : Turn :=
  match blockReason chunk with
  | Some reason =>
      if firstChunk && truthy reason
      then Raised (ErrorObject (blockedMessage reason))
      else Dispatched (TRANSLATION_CHUNK (text chunk))
  | None => Dispatched (TRANSLATION_CHUNK (text chunk))
  end.

(** The [try] block after [dispatch({type: 'TRANSLATE'})]: the actions
    it dispatches and the exception that leaves it, if any. *)
Fixpoint forAwait (firstChunk : bool) (cs : list Chunk) (fail : option Thrown)
  : list AppAction * option Thrown :=
  match cs with
  | [] =>
      match fail with
      | Some err => ([], Some err)
      | None => ([TRANSLATION_COMPLETE], None)
      end
  | chunk :: rest =>
      match onChunk firstChunk chunk with
      | Raised err => ([], Some err)
      | Dispatched action =>
          let '(actions, exn) := forAwait false rest fail in
          (action :: actions, exn)
      end
  end.

Definition catchTranslate (exn : option Thrown) : list AppAction :=
  match exn with
  | Some err =>
      [SET_ERROR (messageOr err "An unknown error occurred during translation.")]
  | None => []
  end.

(** Everything dispatched after [TRANSLATE]: the [try] block and its
    [catch]. *)
Definition streamActions (stream : Stream) : list AppAction :=
  let '(actions, exn) := forAwait true (chunks stream) (failure stream) in
  actions ++ catchTranslate exn.

Definition noContentMessage : string :=
  "No content to translate. The document might be empty or failed to parse.".

(** [handleTranslate], as the list of actions it dispatches when the
    service answers with [stream]. *)
Definition handleTranslate (state : AppState) (stream : Stream) : list AppAction :=
  if negb (truthy (fileContent state))
  then [SET_ERROR noContentMessage]
  else TRANSLATE :: streamActions stream.

(** The action [handleTranslate] dispatches for a chunk it accepts. *)
Definition chunkAction (chunk : Chunk) : AppAction :=
  TRANSLATION_CHUNK (text chunk).

(** The first chunk of the stream carries a block reason. *)
Definition firstBlocked (stream : Stream) : bool :=
  match chunks stream with
  | chunk :: _ => isBlocked chunk
  | [] => false
  end.

(** ** The component as a transition system *)

(** Conditions computed in the component body and used by the rendered
    controls. *)
Definition isDisabled (state : AppState) : bool :=
  Status.eqb (status state) Status.parsing
  || Status.eqb (status state) Status.translating.

Definition actionButtonsDisabled (state : AppState) : bool :=
  negb (Status.eqb (status state) Status.complete).

Definition showMainView (state : AppState) : bool :=
  match file state with
  | Some _ => true
  | None => truthy (fileContent state)
  end.

(** The [disabled] attribute of the translate button. *)
Definition translateDisabled (state : AppState) : bool :=
  isDisabled state || negb (truthy (fileContent state)).

(** The controls below the previews are rendered in the main view
    unless the status is ['parsing']. *)
Definition showControls (state : AppState) : bool :=
  showMainView state && negb (Status.eqb (status state) Status.parsing).

(** [handleSwap] of the language selector. *)
Definition swap (d : TranslationDirection) : TranslationDirection :=
  match d with
  | LaoToChinese => ChineseToLao
  | ChineseToLao => LaoToChinese
  end.

(** An asynchronous activity that has been started and has not ended:
    the [await parseFileContent(..)] of [handleFileSelect], or the
    stream of [handleTranslate] with the value of its [firstChunk]. *)
Inductive Task : Type :=
  | ParseTask (selectedFile : File)
  | StreamTask (firstChunk : bool).

Record Config : Type := mkConfig {
  app : AppState;
  pending : list Task
}.

Definition initialConfig : Config := mkConfig initialState [].

Definition parseFailedMessage : string :=
  "Failed to read or parse the uploaded file.".

(** One step of the component: a user event on a control that is
    rendered and enabled, or the next event of a pending activity. *)
Inductive step : Config -> Config -> Prop :=
  (* the two input-mode buttons, rendered while nothing is loaded *)
  | step_input_mode s ts mode :
      showMainView s = false ->
      step (mkConfig s ts) (mkConfig (appReducer s (SET_INPUT_MODE mode)) ts)
  (* [FileUpload] calls [handleFileSelect], which dispatches and awaits *)
  | step_file_select s ts f :
      showMainView s = false ->
      inputMode s = InputMode.upload ->
      isDisabled s = false ->
      step (mkConfig s ts)
           (mkConfig (appReducer s (START_PARSING f)) (ts ++ [ParseTask f]))
  (* [parseFileContent] resolves, or rejects with [err] *)
  | step_parse_success s pre f post content :
      step (mkConfig s (pre ++ ParseTask f :: post))
           (mkConfig (appReducer s (PARSE_SUCCESS content)) (pre ++ post))
  | step_parse_failure s pre f post err :
      step (mkConfig s (pre ++ ParseTask f :: post))
           (mkConfig (appReducer s (SET_ERROR (messageOr err parseFailedMessage)))
                     (pre ++ post))
  (* the text area calls [handleTextChange] *)
  | step_text_change s ts value :
      showMainView s = false ->
      inputMode s = InputMode.text ->
      isDisabled s = false ->
      step (mkConfig s ts) (mkConfig (appReducer s (SET_TEXT_CONTENT value)) ts)
  (* the translate button calls [handleTranslate]: its early return,
     and its dispatch followed by the await of the stream *)
  | step_translate_no_content s ts :
      showControls s = true ->
      translateDisabled s = false ->
      truthy (fileContent s) = false ->
      step (mkConfig s ts) (mkConfig (appReducer s (SET_ERROR noContentMessage)) ts)
  | step_translate s ts :
      showControls s = true ->
      translateDisabled s = false ->
      truthy (fileContent s) = true ->
      step (mkConfig s ts)
           (mkConfig (appReducer s TRANSLATE) (ts ++ [StreamTask true]))
  (* the stream yields a chunk, ends, or throws [err] *)
  | step_chunk s pre firstChunk post chunk action :
      onChunk firstChunk chunk = Dispatched action ->
      step (mkConfig s (pre ++ StreamTask firstChunk :: post))
           (mkConfig (appReducer s action) (pre ++ StreamTask false :: post))
  | step_chunk_blocked s pre firstChunk post chunk err :
      onChunk firstChunk chunk = Raised err ->
      step (mkConfig s (pre ++ StreamTask firstChunk :: post))
           (mkConfig (dispatchAll s (catchTranslate (Some err))) (pre ++ post))
  | step_stream_end s pre firstChunk post :
      step (mkConfig s (pre ++ StreamTask firstChunk :: post))
           (mkConfig (appReducer s TRANSLATION_COMPLETE) (pre ++ post))
  | step_stream_failure s pre firstChunk post err :
      step (mkConfig s (pre ++ StreamTask firstChunk :: post))
           (mkConfig (dispatchAll s (catchTranslate (Some err))) (pre ++ post))
  (* the reset button, the language selector, the anonymize switch and
     the download-mode buttons *)
  | step_reset s ts :
      showMainView s = true ->
      isDisabled s = false ->
      step (mkConfig s ts) (mkConfig (appReducer s RESET) ts)
  | step_swap_direction s ts :
      showControls s = true ->
      isDisabled s = false ->
      step (mkConfig s ts)
           (mkConfig (appReducer s (SET_DIRECTION (swap (direction s)))) ts)
  | step_anonymize s ts checked :
      showControls s = true ->
      isDisabled s = false ->
      step (mkConfig s ts) (mkConfig (appReducer s (SET_ANONYMIZE checked)) ts)
  | step_download_mode s ts mode :
      showControls s = true ->
      actionButtonsDisabled s = false ->
      step (mkConfig s ts) (mkConfig (appReducer s (SET_DOWNLOAD_MODE mode)) ts).

(** The configurations the component can be in. *)
Inductive reachable : Config -> Prop :=
  | reachable_initial : reachable initialConfig
  | reachable_step c c' : reachable c -> step c c' -> reachable c'.

(** ** Bilingual export ([handleDownload]) *)

Definition LF : ascii := "010"%char.
Definition CR : ascii := "013"%char.
Definition nl : string := String LF "".

(** The members of the class [\s] (and of what [trim] strips) that are
    one code unit long in this model: TAB, LF, VT, FF, CR and SPACE.
    The engine's class also has U+00A0, U+3000, U+FEFF and others, so
    [split], [trim] and [paragraphs] below are the code's on texts whose
    white space is ASCII; what is proved of them is stated for such
    texts, and what holds for all texts is stated with [paragraphsWith]. *)
Definition isSpace (c : ascii) : bool :=
  let n := nat_of_ascii c in
  ((9 <=? n)%nat && (n <=? 13)%nat) || (n =? 32)%nat.

(** [\s*\r?\n] at the head of [s], greedy: the number of characters up
    to and including the last line feed of the leading white-space run,
    if that run has one. *)
Fixpoint throughLastNewline (s : string) : option nat :=
  match s with
  | String c r =>
      if isSpace c then
        match throughLastNewline r with
        | Some n => Some (S n)
        | None => if Ascii.eqb c LF then Some 1 else None
        end
      else None
  | EmptyString => None
  end.

(** The length of the match of [/\r?\n\s*\r?\n/] at the head of [s]. *)
Definition delimiterLength (s : string) : option nat :=
  match s with
  | String c1 r1 =>
      if Ascii.eqb c1 CR then
        match r1 with
        | String c2 r2 =>
            if Ascii.eqb c2 LF
            then option_map (fun n => S (S n)) (throughLastNewline r2)
            else None
        | EmptyString => None
        end
      else if Ascii.eqb c1 LF
      then option_map S (throughLastNewline r1)
      else None
  | EmptyString => None
  end.

(** [String.prototype.split] with that expression: scan from the left;
    where the expression matches, close the current piece and resume
    after the match ([skip] counts the characters of the match still to
    pass); the piece open at the end of the string is the last one. *)
Fixpoint splitFrom (s : string) (skip : nat) (piece : string) : list string :=
  match s with
  | EmptyString => [piece]
  | String c r =>
      match skip with
      | S k => splitFrom r k piece
      | O =>
          match delimiterLength s with
          | Some (S k) => piece :: splitFrom r k ""
          | _ => splitFrom r 0 (piece ++ String c "")
          end
      end
  end.

Definition split (s : string) : list string := splitFrom s 0 "".

Fixpoint trimStart (s : string) : string :=
  match s with
  | String c r => if isSpace c then trimStart r else s
  | EmptyString => ""
  end.

Definition reverse (s : string) : string :=
  string_of_list_ascii (rev (list_ascii_of_string s)).

Definition trimEnd (s : string) : string := reverse (trimStart (reverse s)).

Definition trim (s : string) : string := trimEnd (trimStart s).

(** [text.split(/\r?\n\s*\r?\n/).filter(p => p.trim() !== '')] *)
Definition paragraphs (content : string) : list string :=
  filter (fun p => negb (trim p =? "")) (split content).

Definition missingOriginal : string := "原文：" ++ nl ++ "[...段落缺失...]".
Definition missingTranslated : string := "译文：" ++ nl ++ "[...段落缺失...]".

(** [originalParas[i] ? `原文：\n${originalParas[i]}` : '原文：\n[...段落缺失...]'];
    an index past the end reads [undefined], which is falsy. *)
Definition originalSide (originalParas : list string) (i : nat) : string :=
  match nth_error originalParas i with
  | Some p => if truthy p then "原文：" ++ nl ++ p else missingOriginal
  | None => missingOriginal
  end.

Definition translatedSide (translatedParas : list string) (i : nat) : string :=
  match nth_error translatedParas i with
  | Some p => if truthy p then "译文：" ++ nl ++ p else missingTranslated
  | None => missingTranslated
  end.

Definition decimal (n : nat) : string := NilEmpty.string_of_uint (Nat.to_uint n).

Definition paragraphBlock (i : nat) (original translated : string) : string :=
  "--- 段落 " ++ decimal (i + 1) ++ " ---" ++ nl ++ nl
    ++ original ++ nl ++ nl ++ translated.

(** The array [bilingualContent] after the loop. *)
Definition bilingualBlocks (originalParas translatedParas : list string)
  : list string :=
  let maxLength := Nat.max (List.length originalParas) (List.length translatedParas) in
  map (fun i => paragraphBlock i (originalSide originalParas i)
                               (translatedSide translatedParas i))
      (seq 0 maxLength).

Definition bilingualContent (state : AppState) : string :=
  String.concat (nl ++ nl ++ nl)
    (bilingualBlocks (paragraphs (fileContent state))
                     (paragraphs (translatedText state))).

(** The content [handleDownload] puts in the blob; [None] when it
    returns at its first line. *)
Definition downloadContent (state : AppState) : option string :=
  if negb (Status.eqb (status state) Status.complete)
     || negb (truthy (translatedText state))
  then None
  else match downloadMode state with
       | DownloadMode.bilingual => Some (bilingualContent state)
       | DownloadMode.translation => Some (translatedText state)
       end.

(** ** Sample states *)

Definition sampleFile : File := mkFile "contract.docx".

(** A translation in flight that has received some text. *)
Definition translatingState : AppState :=
  {| status := Status.translating; file := Some sampleFile;
     fileContent := "sabaidee"; direction := LaoToChinese;
     translatedText := "ni"; error := None; anonymize := true;
     downloadMode := DownloadMode.bilingual; inputMode := InputMode.upload |}.

Definition completeState : AppState :=
  {| status := Status.complete; file := Some sampleFile;
     fileContent := "sabaidee"; direction := ChineseToLao;
     translatedText := "ni hao"; error := None; anonymize := false;
     downloadMode := DownloadMode.bilingual; inputMode := InputMode.upload |}.

Definition readyState : AppState :=
  {| status := Status.ready; file := None;
     fileContent := "sabaidee"; direction := LaoToChinese;
     translatedText := ""; error := None; anonymize := true;
     downloadMode := DownloadMode.translation; inputMode := InputMode.text |}.

(** ** Derived notions *)

(** Concatenation of the pieces, first piece first. *)
Definition concatenation (pieces : list string) : string :=
  fold_right append "" pieces.

(** What the loop dispatches when the iteration ends. *)
Definition closing (fail : option Thrown) : list AppAction :=
  match fail with
  | Some _ => []
  | None => [TRANSLATION_COMPLETE]
  end.

(** ** Invariant of the component *)

(** What holds of every configuration: at most one activity is pending;
    the status is ['parsing'] exactly while a parse is pending and
    ['translating'] exactly while a stream is; and outside a stream,
    text sits in [translatedText] only under ['complete'] or ['error']. *)
Inductive Inv : Config -> Prop :=
  | Inv_quiet s :
      isDisabled s = false ->
      translatedText s = "" \/ status s = Status.complete
        \/ status s = Status.error ->
      Inv (mkConfig s [])
  | Inv_parsing s f :
      status s = Status.parsing ->
      file s = Some f ->
      translatedText s = "" ->
      Inv (mkConfig s [ParseTask f])
  | Inv_streaming s firstChunk :
      status s = Status.translating ->
      truthy (fileContent s) = true ->
      Inv (mkConfig s [StreamTask firstChunk]).

(** ** Sample runs *)

(** A run that fails late: text pasted,
    translation requested, one chunk received, then the stream throws. *)
Definition failedLate : Config :=
  mkConfig
    (dispatchAll initialState
       [SET_INPUT_MODE InputMode.text; SET_TEXT_CONTENT "sabaidee"; TRANSLATE;
        TRANSLATION_CHUNK "ni"; SET_ERROR "network down"])
    [].

(** A stream whose second chunk carries a block reason. *)
Definition blockedLate : Stream :=
  mkStream [mkChunk "ni" None; mkChunk " hao" (Some "SAFETY")] None.

(** The state after a translation has completed, the bilingual download
    mode has been chosen and the reset button has been pressed. *)
Definition afterReset : AppState :=
  dispatchAll initialState
    [SET_INPUT_MODE InputMode.text; SET_TEXT_CONTENT "sabaidee"; TRANSLATE;
     TRANSLATION_CHUNK "ni"; TRANSLATION_COMPLETE;
     SET_DOWNLOAD_MODE DownloadMode.bilingual; RESET].

(** ** File names of the export ([getTranslatedFileName], [handleDownload]) *)

(** [s.split(sep)] for a separator of one character: the pieces
    between the occurrences of [sep], at least one piece. *)
Fixpoint splitOn (sep : ascii) (s : string) : list string :=
  match s with
  | EmptyString => [""]
  | String c r =>
      if Ascii.eqb c sep then "" :: splitOn sep r
      else match splitOn sep r with
           | piece :: rest => String c piece :: rest
           | [] => [String c ""]
           end
  end.

(** [s] has an occurrence of [c]. *)
Fixpoint hasChar (c : ascii) (s : string) : bool :=
  match s with
  | EmptyString => false
  | String x r => Ascii.eqb x c || hasChar c r
  end.

Definition dot : ascii := "."%char.

Definition languageCode (d : TranslationDirection) : string :=
  match d with
  | LaoToChinese => "zh"
  | ChineseToLao => "lo"
  end.

(** [getTranslatedFileName]: [pop] drops the last piece of the name,
    [join] puts the others together again. *)
Definition getTranslatedFileName (state : AppState) : string :=
  match file state with
  | None => "translated_document.txt"
  | Some f =>
      let nameParts := removelast (splitOn dot (name f)) in
      let baseName := String.concat "." nameParts in
      baseName ++ "_translated_" ++ languageCode (direction state) ++ ".txt"
  end.

(** The value of [finalFileName] when [handleDownload] creates the
    link. *)
Definition downloadFileName (state : AppState) : string :=
  let finalFileName := getTranslatedFileName state in
  match downloadMode state with
  | DownloadMode.bilingual =>
      let nameParts := splitOn dot finalFileName in
      let popped := last nameParts "" in
      let extension := if truthy popped then popped else "txt" in
      let baseName := String.concat "." (removelast nameParts) in
      baseName ++ "_bilingual." ++ extension
  | DownloadMode.translation => finalFileName
  end.

(** ** Elapsed time of the loader ([formatTime]) *)

(** [s.padStart(targetLength, pad)] for a pad of one character. *)
Definition padStart (targetLength : nat) (pad : ascii) (s : string) : string :=
  string_of_list_ascii (repeat pad (targetLength - String.length s)) ++ s.

(** [formatTime] on a whole number of seconds, which is what the
    component's counter holds. *)
Definition formatTime (seconds : nat) : string :=
  let minutes := padStart 2 "0" (decimal (seconds / 60)) in
  let secs := padStart 2 "0" (decimal (seconds mod 60)) in
  minutes ++ ":" ++ secs.

(** ** Status messages shown while translating *)

(** The array [steps] of the effect, after the conditional [push]. *)
Definition steps (anonymize : bool) : list string :=
  ["Performing initial literal translation...";
   "Polishing for natural fluency...";
   "Finalizing grammar and syntax check..."]
  ++ (if anonymize then ["Applying anonymization..."] else []).

(** The body of the three-second interval: the new [stepIndex]. *)
Definition nextStep (anonymize : bool) (stepIndex : nat) : nat :=
  (stepIndex + 1) mod List.length (steps anonymize).

(** [steps[stepIndex]]; an index past the end reads [undefined]. *)
Definition stepMessage (anonymize : bool) (stepIndex : nat) : option string :=
  nth_error (steps anonymize) stepIndex.

(** The message on display after the effect has started and the
    interval has fired [ticks] times. *)
Definition statusMessageAfter (anonymize : bool) (ticks : nat) : option string :=
  stepMessage anonymize (Nat.iter ticks (nextStep anonymize) 0).

(** ** The service client ([translateDocumentStream]) *)

(** The third argument of [translateDocumentStream] as the loop meets
    it: absent ([undefined]), a function (taken to return normally), or
    a value that is neither, such as the boolean [handleTranslate]
    passes; [onDelta?.(piece)] does nothing, calls, or throws a
    [TypeError]. *)
Inductive OnDelta : Type :=
  | NoCallback
  | Callback
  | NotCallable.

(** The loop over the service's stream.  A piece is [chunk.text?.()],
    [None] when the chunk has no [text]; the result is the value of
    [full] at the end of the loop, or what left the loop, and the
    arguments [onDelta] was called with, in order.  The message of the
    engine's [TypeError] is a parameter. *)
Fixpoint collectPieces (typeErrorMessage : string) (onDelta : OnDelta)
  (pieces : list (option string)) (full : string)
  : (Thrown + string) * list string :=
  match pieces with
  | [] => (inr full, [])
  | piece :: rest =>
      match piece with
      | Some p =>
          if truthy p then
            match onDelta with
            | NoCallback =>
                collectPieces typeErrorMessage onDelta rest (full ++ p)
            | Callback =>
                let '(result, deltas) :=
                  collectPieces typeErrorMessage onDelta rest (full ++ p) in
                (result, p :: deltas)
            | NotCallable => (inl (ErrorObject typeErrorMessage), [])
            end
          else collectPieces typeErrorMessage onDelta rest full
      | None => collectPieces typeErrorMessage onDelta rest full
      end
  end.

(** [translateDocumentStream]: the promise resolves with [full] when the
    loop, the stream and [stream.response] end normally, and rejects
    otherwise; the deltas handed out before a rejection stay handed
    out.  [fail] is what the stream or its response throws after the
    listed pieces, if anything. *)
Definition translateDocumentStream
  (typeErrorMessage : string) (onDelta : OnDelta)
  (pieces : list (option string)) (fail : option Thrown)
  : (Thrown + string) * list string :=
  match collectPieces typeErrorMessage onDelta pieces "" with
  | (inr full, deltas) =>
      match fail with
      | Some err => (inl err, deltas)
      | None => (inr full, deltas)
      end
  | (inl err, deltas) => (inl err, deltas)
  end.

(** ** Paragraphs with the engine's own [split] and [trim] *)

(** [text.split(/\r?\n\s*\r?\n/).filter(p => p.trim() !== '')], the
    split at the expression and [trim] being whatever the engine
    computes. *)
Definition paragraphsWith
  (splitText : string -> list string) (trimText : string -> string)
  (content : string) : list string :=
  filter (fun p => negb (trimText p =? "")) (splitText content).

(** ** The file parser ([parseFileContent]) and [handleFileSelect] *)

(** A text item of a PDF page has a [str]; marked content has none. *)
Definition PdfItem : Type := option string.

Section FileParser.

(** What the browser and the PDF and DOCX libraries provide. *)
Variable toLowerCase : string -> string.
Variable Buffer : Type.
Variable fileType : File -> string.
Variable arrayBuffer : File -> Thrown + Buffer.
Variable getDocument : Buffer -> Thrown + list (list PdfItem).
Variable extractRawText : Buffer -> Thrown + string.
Variable decode : Buffer -> string.

(** [file.name.split('.').pop()?.toLowerCase()] *)
Definition fileExtensionOf (f : File) : string :=
  toLowerCase (last (splitOn dot (name f)) "").

Definition pageText (items : list PdfItem) : string :=
  String.concat " "
    (map (fun item => match item with Some str => str | None => "" end) items).

(** The [switch] inside the [try]. *)
Definition parseByExtension (f : File) (fileExtension : string) (buffer : Buffer)
  : Thrown + string :=
  if fileExtension =? "pdf" then
    match getDocument buffer with
    | inl err => inl err
    | inr pages => inr (String.concat (nl ++ nl) (map pageText pages))
    end
  else if fileExtension =? "docx" then extractRawText buffer
  else if (fileExtension =? "txt") || (fileExtension =? "md") then
    inr (decode buffer)
  else if fileExtension =? "doc" then
    inl (ErrorObject ".doc files are not supported. Please save as .docx or .pdf.")
  else if String.prefix "text/" (fileType f) then inr (decode buffer)
  else inl (ErrorObject ("Unsupported file type: ." ++ fileExtension
                         ++ ". Please upload a PDF, DOCX, or text file.")).

(** The [catch] around the [switch]. *)
Definition rethrowParse (result : Thrown + string) : Thrown + string :=
  match result with
  | inl (ErrorObject message) =>
      inl (ErrorObject ("Failed to parse file: " ++ message))
  | inl NonError =>
      inl (ErrorObject "An unknown error occurred while parsing the file.")
  | inr content => inr content
  end.

Definition parseFileContent (f : File) : Thrown + string :=
  let fileExtension := fileExtensionOf f in
  if negb (truthy fileExtension)
  then inl (ErrorObject "Could not determine file type.")
  else match arrayBuffer f with
       | inl err => inl err
       | inr buffer => rethrowParse (parseByExtension f fileExtension buffer)
       end.

(** [handleFileSelect], as the list of actions it dispatches. *)
Definition handleFileSelect (selectedFile : File) : list AppAction :=
  START_PARSING selectedFile ::
  match parseFileContent selectedFile with
  | inr content => [PARSE_SUCCESS content]
  | inl err => [SET_ERROR (messageOr err parseFailedMessage)]
  end.

End FileParser.

(** ** What a translation run leaves alone *)

(** The fields no action of [handleTranslate] writes. *)
Definition frame (state : AppState)
  : option File * string * TranslationDirection * bool
    * DownloadMode.t * InputMode.t :=
  (file state, fileContent state, direction state, anonymize state,
   downloadMode state, inputMode state).

(** The actions [handleTranslate] dispatches. *)
Definition ofTranslation (action : AppAction) : bool :=
  match action with
  | TRANSLATE | TRANSLATION_CHUNK _ | TRANSLATION_COMPLETE | SET_ERROR _ => true
  | _ => false
  end.

(** ASCII lower case, an instance of [toLowerCase] on ASCII names. *)
Definition asciiLower (s : string) : string :=
  string_of_list_ascii
    (map (fun c => let n := nat_of_ascii c in
                   if (65 <=? n)%nat && (n <=? 90)%nat
                   then ascii_of_nat (n + 32) else c)
         (list_ascii_of_string s)).

(** Two facts every step keeps: an error message is stored exactly in
    status ['error'], and nothing is loaded exactly in status ['idle']. *)
Definition consistentView (s : AppState) : Prop :=
  (status s = Status.error <-> error s <> None)
  /\ (showMainView s = false <-> status s = Status.idle).

(** A translation in flight: text pasted, translation requested, one
    chunk received. *)
Definition inFlight : Config :=
  mkConfig
    (dispatchAll initialState
       [SET_INPUT_MODE InputMode.text; SET_TEXT_CONTENT "sabaidee"; TRANSLATE;
        TRANSLATION_CHUNK "ni"])
    [StreamTask false].

(** A stream that fails after two chunks. *)
Definition brokenStream : Stream :=
  mkStream [mkChunk "ni" None; mkChunk " hao" None]
           (Some (ErrorObject "network down")).

(** Every character of [s] is white space, and [s] begins with white
    space. *)
Fixpoint allSpace (s : string) : bool :=
  match s with
  | EmptyString => true
  | String c r => isSpace c && allSpace r
  end.

Definition startsWithSpace (s : string) : bool :=
  match s with
  | EmptyString => false
  | String c _ => isSpace c
  end.

(** A run of blank lines: a line break (with or without carriage
    return), white space, and a last line feed. *)
Definition blankLines (crlf : bool) (between : string) : string :=
  (if crlf then String CR "" else "") ++ String LF (between ++ String LF "").

Definition sampleState (fileName : string) (mode : DownloadMode.t) : AppState :=
  {| status := Status.complete; file := Some (mkFile fileName);
     fileContent := "sabaidee"; direction := ChineseToLao;
     translatedText := "ni hao"; error := None; anonymize := false;
     downloadMode := mode; inputMode := InputMode.upload |}.

(** [s] is empty or begins with an ASCII character that is not white
    space. *)
Definition startsPlain (s : string) : bool :=
  match s with
  | EmptyString => true
  | String c _ => negb (isSpace c) && (nat_of_ascii c <? 128)%nat
  end.

(** [piece || ""] for an optional piece. *)
Definition pieceText (piece : option string) : string :=
  match piece with
  | Some p => p
  | None => ""
  end.

(** A browser for the examples: the buffer of a file is a string, the
    PDF and DOCX libraries succeed, every file has the type of a Word
    document. *)
Definition sampleBuffer (f : File) : Thrown + string := inr "bytes".
Definition sampleType (f : File) : string := "application/msword".
Definition samplePdf (buffer : string) : Thrown + list (list PdfItem) :=
  inr [[Some "page"; None; Some "one"]; [Some "page two"]].
Definition sampleDocx (buffer : string) : Thrown + string := inr buffer.
Definition sampleDecode (buffer : string) : string := buffer.

(** A non-empty line of text without line break that begins with an
    ASCII character other than white space. *)
Definition plainLine (s : string) : bool :=
  negb (s =? "") && negb (hasChar LF s) && negb (hasChar CR s) && startsPlain s.

(** * Properties *)

(** ** Strings *)

Lemma append_nil_r (s : string) : s ++ "" = s.
Proof. induction s as [|c s IH]; simpl; [reflexivity | now rewrite IH]. Qed.

Lemma append_assoc (a b c : string) : (a ++ b) ++ c = a ++ (b ++ c).
Proof. induction a as [|x a IH]; simpl; [reflexivity | now rewrite IH]. Qed.

Lemma length_append (a b : string) :
  String.length (a ++ b) = String.length a + String.length b.
Proof. induction a as [|x a IH]; simpl; [reflexivity | now rewrite IH]. Qed.

Lemma append_eq_self (a b : string) : a ++ b = a <-> b = "".
Proof.
  split.
  - intros H. apply (f_equal String.length) in H.
    rewrite length_append in H.
    destruct b; [reflexivity | simpl in H; lia].
  - intros ->. apply append_nil_r.
Qed.

Lemma truthy_true (s : string) : truthy s = true <-> s <> "".
Proof.
  unfold truthy. destruct (String.eqb_spec s ""); simpl; split; congruence.
Qed.

Lemma truthy_false (s : string) : truthy s = false <-> s = "".
Proof.
  unfold truthy. destruct (String.eqb_spec s ""); simpl; split; congruence.
Qed.

(** ** The reducer, action by action *)

(** C7: resetting from ['complete'] or ['error'] gives status ['idle'],
    an empty [fileContent] and an empty [translatedText], and leaves
    [direction], [anonymize] and [downloadMode] as they were. *)
Theorem reset_keeps_preferences (s : AppState) :
  status s = Status.complete \/ status s = Status.error ->
  status (appReducer s RESET) = Status.idle
  /\ fileContent (appReducer s RESET) = ""
  /\ translatedText (appReducer s RESET) = ""
  /\ direction (appReducer s RESET) = direction s
  /\ anonymize (appReducer s RESET) = anonymize s
  /\ downloadMode (appReducer s RESET) = downloadMode s.
Proof. intros _. simpl. repeat split. Qed.

Lemma reset_keeps_preferences_witness :
  status (appReducer completeState RESET) = Status.idle
  /\ fileContent (appReducer completeState RESET) = ""
  /\ translatedText (appReducer completeState RESET) = ""
  /\ direction (appReducer completeState RESET) = ChineseToLao
  /\ anonymize (appReducer completeState RESET) = false
  /\ downloadMode (appReducer completeState RESET) = DownloadMode.bilingual.
Proof.
  apply (reset_keeps_preferences completeState).
  left. reflexivity.
Defined.

(** C10: when the source content is not empty, [handleTranslate]
    dispatches [TRANSLATE] before anything of the stream, and that
    action leaves [translatedText] empty and [error] null whatever they
    held; the first accepted chunk is then the whole of
    [translatedText]. *)
Theorem translate_clears_previous_run (s : AppState) (stream : Stream) (piece : string) :
  fileContent s <> "" ->
  handleTranslate s stream = TRANSLATE :: streamActions stream
  /\ status (appReducer s TRANSLATE) = Status.translating
  /\ translatedText (appReducer s TRANSLATE) = ""
  /\ error (appReducer s TRANSLATE) = None
  /\ translatedText (dispatchAll s [TRANSLATE; TRANSLATION_CHUNK piece]) = piece.
Proof.
  intros Hcontent. apply truthy_true in Hcontent.
  unfold handleTranslate. rewrite Hcontent. simpl. repeat split.
Qed.

Lemma translate_clears_previous_run_witness :
  handleTranslate completeState (mkStream [mkChunk "sa" None] None)
    = TRANSLATE :: streamActions (mkStream [mkChunk "sa" None] None)
  /\ status (appReducer completeState TRANSLATE) = Status.translating
  /\ translatedText (appReducer completeState TRANSLATE) = ""
  /\ error (appReducer completeState TRANSLATE) = None
  /\ translatedText (dispatchAll completeState [TRANSLATE; TRANSLATION_CHUNK "sa"]) = "sa".
Proof.
  apply (translate_clears_previous_run completeState).
  simpl. discriminate.
Defined.

(** C2, as the code has it: in a ['translating'] state the reducer does
    not ignore [TRANSLATE]; it keeps the status and every other field
    but sets [translatedText] to the empty string and [error] to null,
    so the state is returned unchanged only when both were already so.
    What keeps a second request out is the translate button, which is
    disabled in that status. *)
Theorem translate_while_translating (s : AppState) :
  status s = Status.translating ->
  let s' := appReducer s TRANSLATE in
  (status s' = status s /\ file s' = file s /\ fileContent s' = fileContent s
   /\ direction s' = direction s /\ anonymize s' = anonymize s
   /\ downloadMode s' = downloadMode s /\ inputMode s' = inputMode s)
  /\ translatedText s' = ""
  /\ error s' = None
  /\ (s' = s <-> translatedText s = "" /\ error s = None)
  /\ translateDisabled s = true.
Proof.
  intros Hst. destruct s as [st f fc d tt e an dm im]. simpl in *. subst st.
  repeat split; try reflexivity.
  - now inversion H.
  - now inversion H.
  - intros [-> ->]. reflexivity.
Qed.

Lemma translate_while_translating_witness :
  translatedText (appReducer translatingState TRANSLATE) = ""
  /\ translateDisabled translatingState = true.
Proof.
  pose proof (translate_while_translating translatingState eq_refl) as H.
  split; apply H.
Defined.

(** C2 does not hold as stated: a translating state that has received
    text is changed by [TRANSLATE]. *)
Lemma translate_while_translating_not_ignored :
  status translatingState = Status.translating
  /\ appReducer translatingState TRANSLATE <> translatingState.
Proof. split; [reflexivity | discriminate]. Qed.

(** ** The invariant is kept by every step *)

Lemma singleton_split {A : Type} (x t : A) (pre post : list A) :
  (pre ++ t :: post)%list = [x] -> pre = [] /\ t = x /\ post = [].
Proof.
  destruct pre as [|y pre]; simpl; intros H.
  - inversion H. auto.
  - inversion H as [[Hy Hnil]]. destruct (app_cons_not_nil _ _ _ (eq_sym Hnil)).
Qed.

Lemma onChunk_dispatches (firstChunk : bool) (chunk : Chunk) (action : AppAction) :
  onChunk firstChunk chunk = Dispatched action -> action = chunkAction chunk.
Proof.
  unfold onChunk, chunkAction.
  destruct (blockReason chunk) as [reason|];
    [destruct (firstChunk && truthy reason)|]; congruence.
Qed.

Ltac pending_shape :=
  match goal with
  | H : (_ ++ _ :: _)%list = [] |- _ =>
      destruct (app_cons_not_nil _ _ _ (eq_sym H))
  | H : (_ ++ _ :: _)%list = [_] |- _ =>
      apply singleton_split in H; destruct H as (-> & H & ->);
      try discriminate H; try (injection H as <-)
  end.

Ltac guard_clash :=
  match goal with
  | Hst : status ?s = _, H : isDisabled ?s = false |- _ =>
      unfold isDisabled in H; rewrite Hst in H; discriminate H
  | Hst : status ?s = _, H : translateDisabled ?s = false |- _ =>
      unfold translateDisabled, isDisabled in H; rewrite Hst in H;
      discriminate H
  | Hst : status ?s = _, H : actionButtonsDisabled ?s = false |- _ =>
      unfold actionButtonsDisabled in H; rewrite Hst in H; discriminate H
  | Hf : file ?s = Some _, H : showMainView ?s = false |- _ =>
      unfold showMainView in H; rewrite Hf in H; discriminate H
  | Hc : truthy (fileContent ?s) = true, H : showMainView ?s = false |- _ =>
      unfold showMainView in H; rewrite Hc in H;
      destruct (file s); discriminate H
  end.

Lemma Inv_step (c c' : Config) : Inv c -> step c c' -> Inv c'.
Proof.
  intros HI Hs.
  destruct HI as [s Hen Htt | s f Hst Hf Htt | s b Hst Hfc];
    inversion Hs; subst; try pending_shape; try guard_clash; simpl.
  - (* input mode *)
    apply Inv_quiet; [exact Hen | exact Htt].
  - (* file selected *)
    apply Inv_parsing; reflexivity.
  - (* text entered *)
    apply Inv_quiet; [|left; reflexivity].
    unfold isDisabled; simpl. destruct (truthy value); reflexivity.
  - (* translate, no content *)
    apply Inv_quiet; [reflexivity | right; right; reflexivity].
  - (* translate *)
    apply Inv_streaming; [reflexivity | assumption].
  - (* reset *)
    apply Inv_quiet; [reflexivity | left; reflexivity].
  - (* swap direction *)
    apply Inv_quiet; [exact Hen | exact Htt].
  - (* anonymize *)
    apply Inv_quiet; [exact Hen | exact Htt].
  - (* download mode *)
    apply Inv_quiet; [exact Hen | exact Htt].
  - (* parse success *)
    apply Inv_quiet; [reflexivity | left; exact Htt].
  - (* parse failure *)
    apply Inv_quiet; [reflexivity | right; right; reflexivity].
  - (* chunk accepted *)
    match goal with H : onChunk _ _ = Dispatched _ |- _ =>
      apply onChunk_dispatches in H; subst end.
    apply Inv_streaming; assumption.
  - (* first chunk blocked *)
    apply Inv_quiet; [reflexivity | right; right; reflexivity].
  - (* stream ended *)
    apply Inv_quiet; [reflexivity | right; left; reflexivity].
  - (* stream failed *)
    apply Inv_quiet; [reflexivity | right; right; reflexivity].
Qed.

Lemma reachable_Inv (c : Config) : reachable c -> Inv c.
Proof.
  induction 1 as [|c c' _ IH Hs].
  - apply Inv_quiet; [reflexivity | left; reflexivity].
  - exact (Inv_step c c' IH Hs).
Qed.

(** While a stream is pending the status is ['translating'], and the
    stream is the only pending activity: no control that would leave
    the status is enabled, so the reducer meets [TRANSLATION_CHUNK] in
    no other status. *)
Lemma stream_pending_translating (c : Config) (firstChunk : bool) :
  reachable c -> In (StreamTask firstChunk) (pending c) ->
  status (app c) = Status.translating /\ pending c = [StreamTask firstChunk].
Proof.
  intros Hr Hin. destruct (reachable_Inv c Hr); simpl in *.
  - contradiction.
  - destruct Hin as [Hin|[]]. discriminate Hin.
  - destruct Hin as [Hin|[]]. injection Hin as ->. auto.
Qed.

(** C3, as the code has it: the reducer does not look at the status.
    In a state that is not ['translating'], as in any other,
    [TRANSLATION_CHUNK] appends its payload to [translatedText] and
    leaves every other field alone, so the state comes back unchanged
    exactly when the payload is the empty string.  The component keeps
    such a chunk from arising: as long as a stream is pending, the
    status is ['translating']. *)
Theorem chunk_appends_in_every_status (s : AppState) (piece : string) :
  status s <> Status.translating ->
  let s' := appReducer s (TRANSLATION_CHUNK piece) in
  translatedText s' = translatedText s ++ piece
  /\ (status s' = status s /\ file s' = file s /\ fileContent s' = fileContent s
      /\ direction s' = direction s /\ error s' = error s
      /\ anonymize s' = anonymize s /\ downloadMode s' = downloadMode s
      /\ inputMode s' = inputMode s)
  /\ (s' = s <-> piece = "")
  /\ (forall c firstChunk,
        reachable c -> In (StreamTask firstChunk) (pending c) ->
        status (app c) = Status.translating).
Proof.
  intros _. destruct s as [st f fc d tt e an dm im]. cbv zeta. simpl.
  split; [reflexivity|]. split; [tauto|]. split.
  - split.
    + intros H. inversion H as [Htt]. now apply append_eq_self in Htt.
    + intros ->. now rewrite append_nil_r.
  - intros c firstChunk Hr Hin.
    exact (proj1 (stream_pending_translating c firstChunk Hr Hin)).
Qed.

Lemma chunk_appends_in_every_status_witness :
  translatedText (appReducer completeState (TRANSLATION_CHUNK "!")) = "ni hao!".
Proof.
  apply (chunk_appends_in_every_status completeState "!").
  simpl. discriminate.
Defined.

(** C3 does not hold as stated: a chunk that arrives in the state a
    reset leaves behind is appended to it. *)
Lemma stale_chunk_not_ignored :
  status initialState <> Status.translating
  /\ appReducer initialState (TRANSLATION_CHUNK "ni") <> initialState
  /\ translatedText (appReducer initialState (TRANSLATION_CHUNK "ni")) = "ni".
Proof. repeat split; simpl; discriminate. Qed.

Lemma failedLate_reachable : reachable failedLate.
Proof.
  unfold failedLate.
  eapply reachable_step;
    [| apply (step_stream_failure _ [] false [] (ErrorObject "network down"))].
  eapply reachable_step;
    [| apply (step_chunk _ [] true [] (mkChunk "ni" None)); reflexivity].
  eapply reachable_step; [| apply (step_translate _ []); reflexivity].
  eapply reachable_step; [| apply (step_text_change _ []); reflexivity].
  eapply reachable_step; [| apply (step_input_mode _ []); reflexivity].
  apply reachable_initial.
Qed.

(** C1, as the code has it: in every configuration the component can
    reach, [translatedText] is non-empty only if the status is
    ['translating'], ['complete'] or ['error']; it is never non-empty
    under ['idle'], ['parsing'] or ['ready']. *)
Theorem translatedText_only_after_translate (c : Config) :
  reachable c ->
  translatedText (app c) <> "" ->
  status (app c) = Status.translating \/ status (app c) = Status.complete
    \/ status (app c) = Status.error.
Proof.
  intros Hr Hne. destruct (reachable_Inv c Hr) as [s _ Htt | s f _ _ Htt | s b Hst _];
    simpl in *.
  - destruct Htt as [Htt|[Htt|Htt]]; [contradiction | auto | auto].
  - contradiction.
  - auto.
Qed.

Lemma translatedText_only_after_translate_witness :
  status (app failedLate) = Status.translating
  \/ status (app failedLate) = Status.complete
  \/ status (app failedLate) = Status.error.
Proof.
  apply (translatedText_only_after_translate failedLate).
  - exact failedLate_reachable.
  - simpl. discriminate.
Defined.

(** C1 does not hold as stated: a stream that fails after a chunk
    leaves the status ['error'] with the received text still in
    [translatedText]. *)
Lemma error_keeps_partial_translation :
  reachable failedLate
  /\ translatedText (app failedLate) = "ni"
  /\ status (app failedLate) = Status.error
  /\ ~ (status (app failedLate) = Status.translating
        \/ status (app failedLate) = Status.complete).
Proof.
  split; [exact failedLate_reachable|].
  repeat split. intros [H|H]; discriminate H.
Qed.

(** ** The stream, chunk by chunk *)

Lemma onChunk_accepts (firstChunk : bool) (chunk : Chunk) :
  firstChunk && isBlocked chunk = false ->
  onChunk firstChunk chunk = Dispatched (chunkAction chunk).
Proof.
  unfold onChunk, isBlocked, chunkAction.
  destruct (blockReason chunk) as [reason|]; [|reflexivity].
  intros ->. reflexivity.
Qed.

Lemma onChunk_blocks (chunk : Chunk) (reason : string) :
  blockReason chunk = Some reason -> truthy reason = true ->
  onChunk true chunk = Raised (ErrorObject (blockedMessage reason)).
Proof. unfold onChunk. intros -> Hr. simpl. now rewrite Hr. Qed.

Lemma forAwait_rest (cs : list Chunk) (fail : option Thrown) :
  forAwait false cs fail = (map chunkAction cs ++ closing fail, fail)%list.
Proof.
  induction cs as [|chunk rest IH]; simpl.
  - destruct fail; reflexivity.
  - rewrite (onChunk_accepts false chunk eq_refl), IH. reflexivity.
Qed.

Lemma streamActions_accepted (stream : Stream) :
  firstBlocked stream = false ->
  streamActions stream
    = (map chunkAction (chunks stream) ++ closing (failure stream)
         ++ catchTranslate (failure stream))%list.
Proof.
  unfold streamActions, firstBlocked.
  destruct stream as [[|chunk rest] fail]; simpl.
  - intros _. destruct fail; reflexivity.
  - intros Hb. rewrite (onChunk_accepts true chunk Hb), forAwait_rest.
    simpl. now rewrite <- app_assoc.
Qed.

Lemma streamActions_blocked (stream : Stream) :
  firstBlocked stream = true ->
  exists chunk rest reason,
    chunks stream = chunk :: rest
    /\ blockReason chunk = Some reason /\ truthy reason = true
    /\ streamActions stream = [SET_ERROR (blockedMessage reason)].
Proof.
  unfold streamActions, firstBlocked, isBlocked.
  destruct stream as [[|chunk rest] fail]; simpl; [discriminate|].
  destruct (blockReason chunk) as [reason|] eqn:Hbr; [|discriminate].
  intros Hr. exists chunk, rest, reason.
  rewrite (onChunk_blocks chunk reason Hbr Hr). auto.
Qed.

Lemma dispatch_chunks (s : AppState) (cs : list Chunk) :
  status (dispatchAll s (map chunkAction cs)) = status s
  /\ translatedText (dispatchAll s (map chunkAction cs))
     = translatedText s ++ concatenation (map text cs).
Proof.
  revert s. induction cs as [|chunk rest IH]; intros s.
  - simpl. now rewrite append_nil_r.
  - destruct (IH (appReducer s (chunkAction chunk))) as [Hst Htt].
    change (dispatchAll s (map chunkAction (chunk :: rest)))
      with (dispatchAll (appReducer s (chunkAction chunk)) (map chunkAction rest)).
    rewrite Hst, Htt. simpl. now rewrite append_assoc.
Qed.

Lemma dispatchAll_app (s : AppState) (xs ys : list AppAction) :
  dispatchAll s (xs ++ ys) = dispatchAll (dispatchAll s xs) ys.
Proof. apply fold_left_app. Qed.

Lemma length_concatenation (pieces : list string) :
  String.length (concatenation pieces) = list_sum (map String.length pieces).
Proof.
  induction pieces as [|p rest IH]; simpl; [reflexivity|].
  now rewrite length_append, IH.
Qed.

(** C4: from a ['ready'] state, [TRANSLATE] followed by one
    [TRANSLATION_CHUNK] per chunk of a stream without block reasons
    leaves in [translatedText] the concatenation of the chunks' texts in
    stream order, and its length is the sum of the lengths of the
    pieces; these are the actions [handleTranslate] dispatches for such
    a stream before it completes. *)
Theorem unblocked_stream_concatenates (s : AppState) (cs : list Chunk) :
  status s = Status.ready ->
  Forall (fun chunk => blockReason chunk = None) cs ->
  let s' := dispatchAll s (TRANSLATE :: map chunkAction cs) in
  translatedText s' = concatenation (map text cs)
  /\ String.length (translatedText s')
     = list_sum (map String.length (map text cs))
  /\ (fileContent s <> "" ->
      handleTranslate s (mkStream cs None)
        = (TRANSLATE :: map chunkAction cs ++ [TRANSLATION_COMPLETE])%list
      /\ translatedText (dispatchAll s (handleTranslate s (mkStream cs None)))
         = concatenation (map text cs)).
Proof.
  intros _ Hun.
  assert (Htt : translatedText (dispatchAll s (TRANSLATE :: map chunkAction cs))
                = concatenation (map text cs)).
  { change (dispatchAll s (TRANSLATE :: map chunkAction cs))
      with (dispatchAll (appReducer s TRANSLATE) (map chunkAction cs)).
    now destruct (dispatch_chunks (appReducer s TRANSLATE) cs) as [_ ->]. }
  cbv zeta. split; [exact Htt|]. split.
  - rewrite Htt. apply length_concatenation.
  - intros Hfc. apply truthy_true in Hfc.
    assert (Hb : firstBlocked (mkStream cs None) = false).
    { unfold firstBlocked, isBlocked; simpl.
      destruct Hun as [|chunk rest Hc _]; [reflexivity | now rewrite Hc]. }
    unfold handleTranslate. rewrite Hfc. simpl negb. cbv iota.
    rewrite (streamActions_accepted _ Hb). simpl chunks. simpl failure.
    simpl closing. simpl catchTranslate. rewrite app_nil_r.
    split; [reflexivity|].
    change (TRANSLATE :: map chunkAction cs ++ [TRANSLATION_COMPLETE])%list
      with ((TRANSLATE :: map chunkAction cs) ++ [TRANSLATION_COMPLETE])%list.
    rewrite dispatchAll_app. exact Htt.
Qed.

Lemma unblocked_stream_concatenates_witness :
  translatedText
    (dispatchAll readyState
       (TRANSLATE :: map chunkAction [mkChunk "ni" None; mkChunk " hao" None]))
  = "ni hao".
Proof.
  refine (proj1 (unblocked_stream_concatenates readyState
                   [mkChunk "ni" None; mkChunk " hao" None] _ _)).
  - reflexivity.
  - repeat constructor.
Defined.

(** C5, as the code has it: from a ['translating'] state, a stream
    whose first chunk carries a block reason, and a stream that fails,
    end in status ['error']; the status ends ['complete'] exactly when
    the first chunk is not blocked and the stream ends normally; every
    chunk that is not a blocked first chunk is dispatched, keeps the
    status ['translating'] and has its text appended.  The block reason
    of a later chunk is not looked at: when the first chunk is not
    blocked, the text of every chunk is appended. *)
Theorem stream_outcome (s : AppState) (stream : Stream) :
  status s = Status.translating ->
  let final := dispatchAll s (streamActions stream) in
  (firstBlocked stream = true \/ failure stream <> None ->
   status final = Status.error)
  /\ (status final = Status.complete
      <-> firstBlocked stream = false /\ failure stream = None)
  /\ (firstBlocked stream = false ->
      translatedText final
        = translatedText s ++ concatenation (map text (chunks stream)))
  /\ (forall firstChunk chunk,
        firstChunk && isBlocked chunk = false ->
        onChunk firstChunk chunk = Dispatched (chunkAction chunk)
        /\ status (appReducer s (chunkAction chunk)) = Status.translating
        /\ translatedText (appReducer s (chunkAction chunk))
           = translatedText s ++ text chunk).
Proof.
  intros Hst.
  assert (Hacc : firstBlocked stream = false ->
            (failure stream = None -> status (dispatchAll s (streamActions stream)) = Status.complete)
            /\ (failure stream <> None -> status (dispatchAll s (streamActions stream)) = Status.error)
            /\ translatedText (dispatchAll s (streamActions stream))
               = translatedText s ++ concatenation (map text (chunks stream))).
  { intros Hb. rewrite (streamActions_accepted _ Hb), dispatchAll_app.
    destruct (dispatch_chunks s (chunks stream)) as [Hs' Ht'].
    destruct (failure stream) as [err|]; simpl; rewrite Ht';
      repeat split; congruence. }
  assert (Hblk : firstBlocked stream = true ->
            status (dispatchAll s (streamActions stream)) = Status.error).
  { intros Hb. destruct (streamActions_blocked _ Hb) as (c & r & reason & _ & _ & _ & ->).
    reflexivity. }
  assert (Hturn : forall firstChunk chunk,
            firstChunk && isBlocked chunk = false ->
            onChunk firstChunk chunk = Dispatched (chunkAction chunk)
            /\ status (appReducer s (chunkAction chunk)) = Status.translating
            /\ translatedText (appReducer s (chunkAction chunk))
               = translatedText s ++ text chunk).
  { intros firstChunk chunk Hc. split; [now apply onChunk_accepts|].
    split; [exact Hst | reflexivity]. }
  cbv zeta. destruct (firstBlocked stream) eqn:Hb.
  - rewrite (Hblk eq_refl).
    split; [reflexivity|]. split; [|split; [discriminate | exact Hturn]].
    split; [discriminate | intros [H _]; discriminate H].
  - destruct (Hacc eq_refl) as (Hok & Hko & Htt).
    split; [intros [H|H]; [discriminate H | exact (Hko H)]|].
    split; [|split; [intros _; exact Htt | exact Hturn]].
    split; [|intros [_ H]; exact (Hok H)].
    destruct (failure stream) as [err|]; [|now split].
    intros H. rewrite Hko in H; discriminate.
Qed.

Lemma stream_outcome_witness :
  translatedText
    (dispatchAll (appReducer readyState TRANSLATE) (streamActions blockedLate))
  = "ni hao".
Proof.
  apply (stream_outcome (appReducer readyState TRANSLATE) blockedLate).
  - reflexivity.
  - reflexivity.
Defined.

(** C5 does not hold as stated: a block reason on a chunk that is not
    the first does not end the run in ['error']; the chunk is appended
    and the run completes. *)
Lemma late_block_reason_completes :
  status (appReducer readyState TRANSLATE) = Status.translating
  /\ existsb isBlocked (chunks blockedLate) = true
  /\ status (dispatchAll (appReducer readyState TRANSLATE)
               (streamActions blockedLate)) = Status.complete
  /\ status (dispatchAll (appReducer readyState TRANSLATE)
               (streamActions blockedLate)) <> Status.error.
Proof. repeat split; simpl; discriminate. Qed.

(** C6: when the source content is not empty and the first chunk of
    the stream carries a block reason, [handleTranslate] dispatches
    [TRANSLATE] and then [SET_ERROR] only: the final state has an empty
    [translatedText], status ['error'], and an error message that
    contains the block reason. *)
Theorem blocked_first_chunk_aborts
  (s : AppState) (chunk : Chunk) (rest : list Chunk) (fail : option Thrown)
  (reason : string) :
  fileContent s <> "" ->
  blockReason chunk = Some reason ->
  reason <> "" ->
  let final := dispatchAll s (handleTranslate s (mkStream (chunk :: rest) fail)) in
  handleTranslate s (mkStream (chunk :: rest) fail)
    = [TRANSLATE; SET_ERROR (blockedMessage reason)]
  /\ translatedText final = ""
  /\ status final = Status.error
  /\ error final = Some (blockedMessage reason)
  /\ exists before after, error final = Some (before ++ reason ++ after).
Proof.
  intros Hfc Hbr Hr. apply truthy_true in Hfc, Hr.
  assert (Hrun : handleTranslate s (mkStream (chunk :: rest) fail)
                 = [TRANSLATE; SET_ERROR (blockedMessage reason)]).
  { unfold handleTranslate, streamActions. rewrite Hfc. simpl.
    now rewrite (onChunk_blocks chunk reason Hbr Hr). }
  cbv zeta. rewrite Hrun. simpl. repeat split.
  exists "Translation was blocked due to: ",
         ". This may be due to the document's content.".
  reflexivity.
Qed.

Lemma blocked_first_chunk_aborts_witness :
  handleTranslate completeState
    (mkStream [mkChunk "" (Some "SAFETY"); mkChunk "ni" None] None)
  = [TRANSLATE;
     SET_ERROR "Translation was blocked due to: SAFETY. This may be due to the document's content."].
Proof.
  apply (blocked_first_chunk_aborts completeState (mkChunk "" (Some "SAFETY"))
           [mkChunk "ni" None] None "SAFETY").
  - simpl. discriminate.
  - reflexivity.
  - discriminate.
Defined.

(** ** New documents and the download mode *)

(** What [START_PARSING] and [SET_TEXT_CONTENT] keep of a state and
    what they replace by the initial value. *)
Lemma new_document_frame (s : AppState) (f : File) (value : string) :
  let parsed := appReducer s (START_PARSING f) in
  let pasted := appReducer s (SET_TEXT_CONTENT value) in
  (fileContent parsed = "" /\ translatedText parsed = "" /\ error parsed = None
   /\ direction parsed = direction s /\ anonymize parsed = anonymize s
   /\ downloadMode parsed = DownloadMode.translation)
  /\ (fileContent pasted = value /\ translatedText pasted = ""
      /\ error pasted = None
      /\ direction pasted = direction s /\ anonymize pasted = anonymize s
      /\ downloadMode pasted = DownloadMode.translation).
Proof. simpl. tauto. Qed.

Lemma afterReset_reachable : reachable (mkConfig afterReset []).
Proof.
  unfold afterReset.
  eapply reachable_step; [| apply (step_reset _ []); reflexivity].
  eapply reachable_step; [| apply (step_download_mode _ []); reflexivity].
  eapply reachable_step; [| apply (step_stream_end _ [] false [])].
  eapply reachable_step;
    [| apply (step_chunk _ [] true [] (mkChunk "ni" None)); reflexivity].
  eapply reachable_step; [| apply (step_translate _ []); reflexivity].
  eapply reachable_step; [| apply (step_text_change _ []); reflexivity].
  eapply reachable_step; [| apply (step_input_mode _ []); reflexivity].
  apply reachable_initial.
Qed.

(** C8 at a state the component reaches: [RESET] has kept the download
    mode ['bilingual'], and the next document, whether a file or pasted
    text, puts it back to ['translation'], while [direction] and
    [anonymize] are kept. *)
Theorem new_document_resets_downloadMode :
  reachable (mkConfig afterReset [])
  /\ downloadMode afterReset = DownloadMode.bilingual
  /\ downloadMode (appReducer afterReset (START_PARSING sampleFile))
     = DownloadMode.translation
  /\ downloadMode (appReducer afterReset (SET_TEXT_CONTENT "sabaidee"))
     = DownloadMode.translation
  /\ downloadMode (appReducer completeState RESET) = downloadMode completeState.
Proof.
  split; [exact afterReset_reachable|].
  repeat split.
Qed.

(** ** The bilingual document *)

Lemma trim_empty : trim "" = "".
Proof. reflexivity. Qed.

(** Every paragraph that passes the filter is a truthy string. *)
Lemma paragraphs_truthy (content p : string) :
  In p (paragraphs content) -> truthy p = true.
Proof.
  unfold paragraphs. rewrite filter_In. intros [_ Hp].
  apply truthy_true. intros ->. rewrite trim_empty in Hp. discriminate Hp.
Qed.

Lemma bilingualBlocks_length (originalParas translatedParas : list string) :
  List.length (bilingualBlocks originalParas translatedParas)
  = Nat.max (List.length originalParas) (List.length translatedParas).
Proof. unfold bilingualBlocks. now rewrite length_map, length_seq. Qed.

Lemma bilingualBlocks_nth (originalParas translatedParas : list string) (i : nat) :
  i < Nat.max (List.length originalParas) (List.length translatedParas) ->
  nth_error (bilingualBlocks originalParas translatedParas) i
  = Some (paragraphBlock i (originalSide originalParas i)
                           (translatedSide translatedParas i)).
Proof.
  intros Hi. unfold bilingualBlocks.
  rewrite nth_error_map, nth_error_seq.
  apply Nat.ltb_lt in Hi. now rewrite Hi.
Qed.

(** The scenario of two paragraphs on each side: two blocks, pairing
    the first paragraphs and the second paragraphs, joined by two blank
    lines. *)
Example bilingual_scenario :
  downloadContent
    {| status := Status.complete; file := None;
       fileContent := "Hello" ++ nl ++ nl ++ "World";
       direction := LaoToChinese;
       translatedText := "Bonjour" ++ String CR nl ++ "  " ++ nl ++ "Monde";
       error := None; anonymize := true;
       downloadMode := DownloadMode.bilingual; inputMode := InputMode.text |}
  = Some (paragraphBlock 0 ("原文：" ++ nl ++ "Hello") ("译文：" ++ nl ++ "Bonjour")
          ++ nl ++ nl ++ nl
          ++ paragraphBlock 1 ("原文：" ++ nl ++ "World") ("译文：" ++ nl ++ "Monde")).
Proof. vm_compute. reflexivity. Qed.

Lemma paragraphsWith_truthy
  (splitText : string -> list string) (trimText : string -> string)
  (content p : string) :
  trimText "" = "" ->
  In p (paragraphsWith splitText trimText content) -> truthy p = true.
Proof.
  intros Htrim. unfold paragraphsWith. rewrite filter_In. intros [_ Hp].
  apply truthy_true. intros ->. rewrite Htrim in Hp. discriminate Hp.
Qed.

Lemma originalSide_present (paras : list string) (i : nat) (p : string) :
  nth_error paras i = Some p -> truthy p = true ->
  originalSide paras i = "原文：" ++ String "010"%char p.
Proof. unfold originalSide. now intros -> ->. Qed.

Lemma originalSide_absent (paras : list string) (i : nat) :
  nth_error paras i = None ->
  originalSide paras i = "原文：" ++ String "010"%char "[...段落缺失...]".
Proof. unfold originalSide. now intros ->. Qed.

Lemma translatedSide_present (paras : list string) (i : nat) (p : string) :
  nth_error paras i = Some p -> truthy p = true ->
  translatedSide paras i = "译文：" ++ String "010"%char p.
Proof. unfold translatedSide. now intros -> ->. Qed.

Lemma translatedSide_absent (paras : list string) (i : nat) :
  nth_error paras i = None ->
  translatedSide paras i = "译文：" ++ String "010"%char "[...段落缺失...]".
Proof. unfold translatedSide. now intros ->. Qed.

Lemma paragraphBlock_text (i : nat) (original translated : string) :
  paragraphBlock i original translated
  = "--- 段落 " ++ NilEmpty.string_of_uint (Nat.to_uint (i + 1)) ++ " ---"
      ++ String "010"%char (String "010"%char
           (original ++ String "010"%char (String "010"%char translated))).
Proof. reflexivity. Qed.

(** C9: for all texts, whatever pieces the engine's split gives and with
    the engine's own [trim] (which leaves the empty string empty), the
    composer makes as many blocks as the longer of the two paragraph
    lists has paragraphs.  Block [i] is the header with the ordinal
    [i + 1], a blank line, the label of the original and the [i]-th
    original paragraph, a blank line, and the label of the translation
    and the [i]-th translated paragraph; a side whose list has no
    [i]-th paragraph reads [...段落缺失...] under its label, and the
    other side stays at index [i].  The paragraphs A, B against the
    single paragraph X give two blocks, the second with the placeholder
    as its translated side. *)
Theorem bilingual_blocks_pair_by_index
  (splitText : string -> list string) (trimText : string -> string)
  (original translated : string) (i : nat) :
  trimText "" = "" ->
  let originalParas := paragraphsWith splitText trimText original in
  let translatedParas := paragraphsWith splitText trimText translated in
  let blocks := bilingualBlocks originalParas translatedParas in
  let lf := String "010"%char "" in
  i < Nat.max (List.length originalParas) (List.length translatedParas) ->
  List.length blocks
    = Nat.max (List.length originalParas) (List.length translatedParas)
  /\ nth_error blocks i
     = Some ("--- 段落 " ++ NilEmpty.string_of_uint (Nat.to_uint (i + 1))
             ++ " ---" ++ lf ++ lf
             ++ (match nth_error originalParas i with
                 | Some p => "原文：" ++ lf ++ p
                 | None => "原文：" ++ lf ++ "[...段落缺失...]"
                 end)
             ++ lf ++ lf
             ++ (match nth_error translatedParas i with
                 | Some p => "译文：" ++ lf ++ p
                 | None => "译文：" ++ lf ++ "[...段落缺失...]"
                 end))
  /\ bilingualBlocks ["A"; "B"] ["X"]
     = ["--- 段落 1 ---" ++ lf ++ lf ++ "原文：" ++ lf ++ "A" ++ lf ++ lf
          ++ "译文：" ++ lf ++ "X";
        "--- 段落 2 ---" ++ lf ++ lf ++ "原文：" ++ lf ++ "B" ++ lf ++ lf
          ++ "译文：" ++ lf ++ "[...段落缺失...]"].
Proof.
  intros Htrim. cbv zeta. intros Hi.
  split; [apply bilingualBlocks_length|].
  split; [|reflexivity].
  rewrite (bilingualBlocks_nth _ _ i Hi), paragraphBlock_text.
  set (op := paragraphsWith splitText trimText original).
  set (tp := paragraphsWith splitText trimText translated).
  assert (Ho : originalSide op i
               = match nth_error op i with
                 | Some p => "原文：" ++ String "010"%char p
                 | None => "原文：" ++ String "010"%char "[...段落缺失...]"
                 end).
  { destruct (nth_error op i) as [p|] eqn:Hn.
    - apply originalSide_present; [exact Hn|].
      exact (paragraphsWith_truthy splitText trimText original p Htrim
               (nth_error_In _ _ Hn)).
    - now apply originalSide_absent. }
  assert (Ht : translatedSide tp i
               = match nth_error tp i with
                 | Some p => "译文：" ++ String "010"%char p
                 | None => "译文：" ++ String "010"%char "[...段落缺失...]"
                 end).
  { destruct (nth_error tp i) as [p|] eqn:Hn.
    - apply translatedSide_present; [exact Hn|].
      exact (paragraphsWith_truthy splitText trimText translated p Htrim
               (nth_error_In _ _ Hn)).
    - now apply translatedSide_absent. }
  rewrite Ho, Ht.
  destruct (nth_error op i), (nth_error tp i); simpl;
    rewrite ?append_assoc; reflexivity.
Qed.

Lemma bilingual_blocks_pair_by_index_witness :
  nth_error
    (bilingualBlocks
       (paragraphsWith split trim
          ("A" ++ String "010"%char (String "010"%char "B")))
       (paragraphsWith split trim "X")) 1
  = Some ("--- 段落 2 ---" ++ String "010"%char (String "010"%char
            ("原文：" ++ String "010"%char ("B" ++ String "010"%char
               (String "010"%char
                  ("译文：" ++ String "010"%char "[...段落缺失...]")))))).
Proof.
  refine (proj1 (proj2 (bilingual_blocks_pair_by_index split trim
            ("A" ++ String "010"%char (String "010"%char "B")) "X" 1 _ _))).
  - reflexivity.
  - vm_compute. lia.
Defined.

(** * Further properties of the component *)

(** ** One activity at a time *)

(** At most one asynchronous activity is pending; the status is
    ['parsing'] exactly while it is a parse and ['translating'] exactly
    while it is a translation stream. *)
Theorem one_activity_at_a_time (c : Config) :
  reachable c ->
  List.length (pending c) <= 1
  /\ (status (app c) = Status.parsing <-> exists f, pending c = [ParseTask f])
  /\ (status (app c) = Status.translating
      <-> exists firstChunk, pending c = [StreamTask firstChunk]).
Proof.
  intros Hr.
  destruct (reachable_Inv c Hr) as [s Hen _ | s f Hst _ _ | s b Hst _]; simpl.
  - split; [lia|]. unfold isDisabled in Hen. apply orb_false_elim in Hen.
    destruct Hen as [Hp Ht].
    split; split.
    + intros H. rewrite H in Hp. discriminate Hp.
    + intros [f H]. discriminate H.
    + intros H. rewrite H in Ht. discriminate Ht.
    + intros [b H]. discriminate H.
  - split; [lia|]. split; split.
    + intros _. now exists f.
    + intros _. exact Hst.
    + intros H. rewrite Hst in H. discriminate H.
    + intros [b H]. discriminate H.
  - split; [lia|]. split; split.
    + intros H. rewrite Hst in H. discriminate H.
    + intros [f H]. discriminate H.
    + intros _. now exists b.
    + intros _. exact Hst.
Qed.

Lemma one_activity_at_a_time_witness : List.length (pending failedLate) <= 1.
Proof.
  apply (one_activity_at_a_time failedLate).
  exact failedLate_reachable.
Defined.

(** ** Error message and input screen *)

Lemma view_initial : consistentView initialState.
Proof.
  split; split; simpl; try reflexivity; try discriminate.
  intros H. now contradiction H.
Qed.

Lemma view_error (s : AppState) (message : string) :
  showMainView s = true -> consistentView (appReducer s (SET_ERROR message)).
Proof.
  intros Hv. split; split; simpl; try reflexivity; try discriminate.
  unfold showMainView in *. simpl. rewrite Hv. discriminate.
Qed.

Lemma view_same (s s' : AppState) :
  consistentView s ->
  status s' = status s -> error s' = error s ->
  file s' = file s -> fileContent s' = fileContent s ->
  consistentView s'.
Proof.
  unfold consistentView, showMainView.
  intros H Hs He Hf Hc. now rewrite Hs, He, Hf, Hc.
Qed.

Lemma view_loaded (s : AppState) :
  showMainView s = true -> error s = None ->
  status s <> Status.error -> status s <> Status.idle ->
  consistentView s.
Proof.
  intros Hv He Hs Hi. split; split.
  - intros H. contradiction.
  - intros H. rewrite He in H. now contradiction H.
  - intros H. rewrite Hv in H. discriminate H.
  - intros H. contradiction.
Qed.

Lemma showControls_main (s : AppState) :
  showControls s = true -> showMainView s = true.
Proof. unfold showControls. intros H. now apply andb_prop in H. Qed.

Lemma reachable_view (c : Config) : reachable c -> consistentView (app c).
Proof.
  induction 1 as [|c c' Hr IH Hs]; [exact view_initial|].
  pose proof (reachable_Inv c Hr) as HI.
  destruct HI as [s Hen Htt | s f Hst Hf Htt | s b Hst Hfc];
    inversion Hs; subst; try pending_shape; try guard_clash;
    simpl in IH; simpl.
  - (* input mode *)
    eapply view_same; [exact IH | reflexivity ..].
  - (* file selected *)
    apply view_loaded; simpl; try reflexivity; discriminate.
  - (* text entered *)
    unfold consistentView, showMainView; simpl.
    destruct (truthy value); repeat split; try discriminate; try reflexivity;
      intros H; now contradiction H.
  - (* translate, no content *)
    apply view_error. now apply showControls_main.
  - (* translate *)
    apply view_loaded; simpl; try reflexivity; try discriminate.
    match goal with H : showControls _ = true |- _ =>
      exact (showControls_main _ H) end.
  - (* reset *)
    exact view_initial.
  - (* swap direction *)
    eapply view_same; [exact IH | reflexivity ..].
  - (* anonymize *)
    eapply view_same; [exact IH | reflexivity ..].
  - (* download mode *)
    eapply view_same; [exact IH | reflexivity ..].
  - (* parse success *)
    destruct IH as [IHe _].
    apply view_loaded; simpl; try discriminate.
    + unfold showMainView; simpl. now rewrite Hf.
    + destruct (error s) eqn:He; [|reflexivity].
      assert (H : status s = Status.error) by (apply IHe; discriminate).
      rewrite Hst in H. discriminate H.
  - (* parse failure *)
    apply view_error. unfold showMainView. now rewrite Hf.
  - (* chunk accepted *)
    match goal with H : onChunk _ _ = Dispatched _ |- _ =>
      apply onChunk_dispatches in H; subst end.
    eapply view_same; [exact IH | reflexivity ..].
  - (* first chunk blocked *)
    apply view_error. unfold showMainView. rewrite Hfc. now destruct (file s).
  - (* stream ended *)
    destruct IH as [IHe _].
    apply view_loaded; [change (showMainView s = true) | simpl ..];
      try discriminate.
    + unfold showMainView. rewrite Hfc. now destruct (file s).
    + destruct (error s) eqn:He; [|reflexivity].
      assert (H : status s = Status.error) by (apply IHe; discriminate).
      rewrite Hst in H. discriminate H.
  - (* stream failed *)
    apply view_error. unfold showMainView. rewrite Hfc. now destruct (file s).
Qed.

(** In every configuration the component reaches, an error message is
    stored exactly when the status is ['error']: every way into that
    status sets a message, and every way out clears it. *)
Theorem error_message_iff_error_status (c : Config) :
  reachable c ->
  (status (app c) = Status.error <-> exists message, error (app c) = Some message).
Proof.
  intros Hr. destruct (reachable_view c Hr) as [[H1 H2] _]. split.
  - intros H. apply H1 in H. destruct (error (app c)) as [m|]; [now exists m|].
    now contradiction H.
  - intros [m Hm]. apply H2. rewrite Hm. discriminate.
Qed.

Lemma error_message_iff_error_status_witness :
  status (app failedLate) = Status.error
  <-> exists message, error (app failedLate) = Some message.
Proof.
  apply (error_message_iff_error_status failedLate).
  exact failedLate_reachable.
Defined.

(** In every configuration the component reaches, the upload-or-paste
    screen is shown (no file and no content) exactly when the status is
    ['idle']. *)
Theorem input_screen_iff_idle (c : Config) :
  reachable c ->
  (showMainView (app c) = false <-> status (app c) = Status.idle).
Proof. intros Hr. exact (proj2 (reachable_view c Hr)). Qed.

Lemma input_screen_iff_idle_witness :
  showMainView afterReset = false <-> status afterReset = Status.idle.
Proof.
  apply (input_screen_iff_idle (mkConfig afterReset [])).
  exact afterReset_reachable.
Defined.

(** ** While a translation is in flight *)

(** From a reachable configuration whose status is ['translating'], a
    step changes neither the file, the source content, the direction,
    the anonymize switch, the download mode nor the input mode, and it
    only appends to [translatedText]. *)
Theorem translating_step_appends (c c' : Config) :
  reachable c ->
  status (app c) = Status.translating ->
  step c c' ->
  frame (app c') = frame (app c)
  /\ exists piece, translatedText (app c') = translatedText (app c) ++ piece.
Proof.
  intros Hr Hst Hs.
  destruct (reachable_Inv c Hr) as [s Hen _ | s f Hp _ _ | s b _ Hfc];
    simpl in Hst.
  - unfold isDisabled in Hen. rewrite Hst in Hen. discriminate Hen.
  - rewrite Hp in Hst. discriminate Hst.
  - inversion Hs; subst; try pending_shape; try guard_clash; simpl.
    + match goal with H : onChunk _ _ = Dispatched _ |- _ =>
        apply onChunk_dispatches in H; subst end.
      split; [reflexivity|]. now exists (text chunk).
    + split; [reflexivity|]. exists "". now rewrite append_nil_r.
    + split; [reflexivity|]. exists "". now rewrite append_nil_r.
    + split; [reflexivity|]. exists "". now rewrite append_nil_r.
Qed.

Lemma inFlight_reachable : reachable inFlight.
Proof.
  unfold inFlight.
  eapply reachable_step;
    [| apply (step_chunk _ [] true [] (mkChunk "ni" None)); reflexivity].
  eapply reachable_step; [| apply (step_translate _ []); reflexivity].
  eapply reachable_step; [| apply (step_text_change _ []); reflexivity].
  eapply reachable_step; [| apply (step_input_mode _ []); reflexivity].
  apply reachable_initial.
Qed.

Lemma translating_step_appends_witness :
  exists piece,
    translatedText
      (appReducer (app inFlight) (TRANSLATION_CHUNK " hao"))
    = translatedText (app inFlight) ++ piece.
Proof.
  refine (proj2 (translating_step_appends inFlight
                   (mkConfig (appReducer (app inFlight) (TRANSLATION_CHUNK " hao"))
                             [StreamTask false]) _ _ _)).
  - exact inFlight_reachable.
  - reflexivity.
  - apply (step_chunk _ [] false [] (mkChunk " hao" None)). reflexivity.
Defined.

(** ** Runs of [handleTranslate] *)

Lemma translateDisabled_false (s : AppState) :
  translateDisabled s = false ->
  isDisabled s = false /\ truthy (fileContent s) = true /\ showControls s = true.
Proof.
  unfold translateDisabled, showControls, showMainView, isDisabled.
  intros H. apply orb_false_elim in H. destruct H as [Hd Hc].
  apply negb_false_iff in Hc. rewrite Hd, Hc.
  apply orb_false_elim in Hd. destruct Hd as [Hp _]. rewrite Hp.
  destruct (file s); auto.
Qed.

Lemma stream_run_reachable (cs : list Chunk) (fail : option Thrown) :
  forall (s : AppState) (firstChunk : bool),
    reachable (mkConfig s [StreamTask firstChunk]) ->
    reachable
      (mkConfig
         (dispatchAll s (fst (forAwait firstChunk cs fail)
                           ++ catchTranslate (snd (forAwait firstChunk cs fail))))
         []).
Proof.
  induction cs as [|chunk rest IH]; intros s firstChunk Hr; simpl.
  - destruct fail as [err|]; simpl.
    + eapply reachable_step; [exact Hr|].
      exact (step_stream_failure s [] firstChunk [] err).
    + eapply reachable_step; [exact Hr|].
      exact (step_stream_end s [] firstChunk []).
  - destruct (onChunk firstChunk chunk) as [err|action] eqn:Hc; simpl.
    + eapply reachable_step; [exact Hr|].
      exact (step_chunk_blocked s [] firstChunk [] chunk err Hc).
    + destruct (forAwait false rest fail) as [actions exn] eqn:Hrest. simpl.
      specialize (IH (appReducer s action) false).
      rewrite Hrest in IH. simpl in IH. apply IH.
      eapply reachable_step; [exact Hr|].
      exact (step_chunk s [] firstChunk [] chunk action Hc).
Qed.

(** A run of [handleTranslate] is a path of the component: when the
    translate button is enabled in a reachable configuration with
    nothing pending, the state after all the actions the handler
    dispatches for a stream is reachable, again with nothing pending. *)
Theorem handleTranslate_run_reachable (s : AppState) (stream : Stream) :
  reachable (mkConfig s []) ->
  translateDisabled s = false ->
  reachable (mkConfig (dispatchAll s (handleTranslate s stream)) []).
Proof.
  intros Hr Hen. destruct (translateDisabled_false s Hen) as (_ & Hc & Hshow).
  unfold handleTranslate, streamActions. rewrite Hc. simpl negb. cbv iota.
  pose proof (stream_run_reachable (chunks stream) (failure stream)
                (appReducer s TRANSLATE) true) as Hrun.
  destruct (forAwait true (chunks stream) (failure stream)) as [actions exn].
  simpl in Hrun. apply Hrun.
  eapply reachable_step; [exact Hr|].
  exact (step_translate s [] Hshow Hen Hc).
Qed.

Lemma readyConfig_reachable : reachable (mkConfig readyState []).
Proof.
  change readyState
    with (dispatchAll initialState
            [SET_INPUT_MODE InputMode.text; SET_TEXT_CONTENT "sabaidee"]).
  eapply reachable_step; [| apply (step_text_change _ []); reflexivity].
  eapply reachable_step; [| apply (step_input_mode _ []); reflexivity].
  apply reachable_initial.
Qed.

Lemma handleTranslate_run_reachable_witness :
  reachable (mkConfig (dispatchAll readyState (handleTranslate readyState blockedLate)) []).
Proof.
  apply (handleTranslate_run_reachable readyState blockedLate).
  - exact readyConfig_reachable.
  - reflexivity.
Defined.

Lemma ofTranslation_frame (s : AppState) (action : AppAction) :
  ofTranslation action = true -> frame (appReducer s action) = frame s.
Proof. destruct action; simpl; try discriminate; reflexivity. Qed.

Lemma dispatchAll_frame (actions : list AppAction) :
  forall s, forallb ofTranslation actions = true ->
            frame (dispatchAll s actions) = frame s.
Proof.
  induction actions as [|action rest IH]; intros s H; [reflexivity|].
  simpl in H. apply andb_prop in H. destruct H as [Ha Hrest].
  change (dispatchAll s (action :: rest))
    with (dispatchAll (appReducer s action) rest).
  rewrite (IH _ Hrest). now apply ofTranslation_frame.
Qed.

Lemma forAwait_ofTranslation (cs : list Chunk) (fail : option Thrown) :
  forall firstChunk,
    forallb ofTranslation (fst (forAwait firstChunk cs fail)) = true.
Proof.
  induction cs as [|chunk rest IH]; intros firstChunk; simpl.
  - destruct fail; reflexivity.
  - destruct (onChunk firstChunk chunk) as [err|action] eqn:Hc; [reflexivity|].
    apply onChunk_dispatches in Hc. subst action.
    specialize (IH false). destruct (forAwait false rest fail). simpl in *.
    exact IH.
Qed.

Lemma handleTranslate_ofTranslation (s : AppState) (stream : Stream) :
  forallb ofTranslation (handleTranslate s stream) = true.
Proof.
  unfold handleTranslate, streamActions.
  destruct (negb (truthy (fileContent s))); [reflexivity|].
  pose proof (forAwait_ofTranslation (chunks stream) (failure stream) true) as H.
  destruct (forAwait true (chunks stream) (failure stream)) as [actions exn].
  simpl in *. rewrite forallb_app, H. now destruct exn.
Qed.

Lemma frame_fileContent (a b : AppState) :
  frame a = frame b -> fileContent a = fileContent b.
Proof.
  intros H.
  exact (f_equal (fun t => snd (fst (fst (fst (fst t))))) H).
Qed.

Lemma translate_from_frame (a b : AppState) :
  frame a = frame b -> appReducer a TRANSLATE = appReducer b TRANSLATE.
Proof.
  destruct a, b. unfold frame. simpl. intros H. inversion H. reflexivity.
Qed.

Lemma handleTranslate_same_content (a b : AppState) (stream : Stream) :
  fileContent a = fileContent b ->
  handleTranslate a stream = handleTranslate b stream.
Proof. unfold handleTranslate. now intros ->. Qed.

(** Translating again leaves no residue: whatever the state, running
    [handleTranslate] a second time on the state the first run left,
    with the service delivering the same stream, ends in the same state
    as the first run. *)
Theorem translate_again_same_result (s : AppState) (stream : Stream) :
  let once := dispatchAll s (handleTranslate s stream) in
  dispatchAll once (handleTranslate once stream) = once.
Proof.
  cbv zeta.
  pose proof (dispatchAll_frame (handleTranslate s stream) s
                (handleTranslate_ofTranslation s stream)) as Hf.
  remember (dispatchAll s (handleTranslate s stream)) as once eqn:Honce.
  assert (Hc : fileContent once = fileContent s)
    by exact (frame_fileContent once s Hf).
  rewrite (handleTranslate_same_content once s stream Hc).
  unfold handleTranslate in *.
  destruct (negb (truthy (fileContent s))).
  - subst once. reflexivity.
  - change (dispatchAll once (TRANSLATE :: streamActions stream))
      with (dispatchAll (appReducer once TRANSLATE) (streamActions stream)).
    rewrite (translate_from_frame once s Hf). subst once. reflexivity.
Qed.

(** Every run of [handleTranslate] ends in ['complete'] or ['error'],
    never in ['translating'], and leaves file, source content and
    preferences as they were; it ends in ['error'] exactly when there
    was no content, the first chunk was blocked, or the stream failed. *)
Theorem handleTranslate_run_settles (s : AppState) (stream : Stream) :
  let final := dispatchAll s (handleTranslate s stream) in
  (status final = Status.complete \/ status final = Status.error)
  /\ (status final = Status.error
      <-> fileContent s = "" \/ firstBlocked stream = true
          \/ failure stream <> None)
  /\ frame final = frame s.
Proof.
  cbv zeta.
  split; [|split;
           [|exact (dispatchAll_frame _ s (handleTranslate_ofTranslation s stream))]].
  - unfold handleTranslate.
    destruct (truthy (fileContent s)); simpl negb; cbv iota; [|now right].
    change (dispatchAll s (TRANSLATE :: streamActions stream))
      with (dispatchAll (appReducer s TRANSLATE) (streamActions stream)).
    destruct (firstBlocked stream) eqn:Hb.
    + destruct (streamActions_blocked _ Hb) as (c & r & reason & _ & _ & _ & ->).
      now right.
    + rewrite (streamActions_accepted _ Hb), dispatchAll_app.
      destruct (failure stream); simpl; auto.
  - unfold handleTranslate.
    destruct (truthy (fileContent s)) eqn:Hc; simpl negb; cbv iota.
    + apply truthy_true in Hc.
      change (dispatchAll s (TRANSLATE :: streamActions stream))
        with (dispatchAll (appReducer s TRANSLATE) (streamActions stream)).
      destruct (firstBlocked stream) eqn:Hb.
      * destruct (streamActions_blocked _ Hb) as (c & r & reason & _ & _ & _ & ->).
        simpl. split; auto.
      * rewrite (streamActions_accepted _ Hb), dispatchAll_app.
        destruct (failure stream) as [err|]; simpl.
        -- split; [intros _; right; right; discriminate | reflexivity].
        -- split; [discriminate|].
           intros [H|[H|H]]; [contradiction | discriminate | now contradiction H].
    + apply truthy_false in Hc. simpl. split; auto.
Qed.

Lemma chunkActions_ofTranslation (cs : list Chunk) :
  forallb ofTranslation (map chunkAction cs) = true.
Proof. induction cs; simpl; auto. Qed.

Lemma dispatch_chunks_error (s : AppState) (cs : list Chunk) :
  error (dispatchAll s (map chunkAction cs)) = error s.
Proof.
  revert s. induction cs as [|c rest IH]; intros s; [reflexivity|].
  change (dispatchAll s (map chunkAction (c :: rest)))
    with (dispatchAll (appReducer s (chunkAction c)) (map chunkAction rest)).
  now rewrite IH.
Qed.

(** A stream that fails after its first chunk was accepted leaves the
    status ['error'], the thrown error's message (or the fixed message
    when what was thrown is not an [Error]) in [error], and every chunk
    received before the failure in [translatedText]. *)
Theorem late_failure_keeps_text
  (s : AppState) (cs : list Chunk) (err : Thrown) :
  fileContent s <> "" ->
  firstBlocked (mkStream cs (Some err)) = false ->
  let final := dispatchAll s (handleTranslate s (mkStream cs (Some err))) in
  status final = Status.error
  /\ error final
     = Some (messageOr err "An unknown error occurred during translation.")
  /\ translatedText final = concatenation (map text cs)
  /\ fileContent final = fileContent s.
Proof.
  intros Hc Hb. apply truthy_true in Hc. cbv zeta.
  unfold handleTranslate. rewrite Hc. simpl negb. cbv iota.
  change (dispatchAll s (TRANSLATE :: ?l))
    with (dispatchAll (appReducer s TRANSLATE) l).
  rewrite (streamActions_accepted _ Hb). simpl chunks. simpl failure.
  rewrite dispatchAll_app.
  destruct (dispatch_chunks (appReducer s TRANSLATE) cs) as [_ Htt].
  pose proof (dispatchAll_frame (map chunkAction cs) (appReducer s TRANSLATE)
                (chunkActions_ofTranslation cs)) as Hf.
  apply frame_fileContent in Hf.
  split; [reflexivity|]. split; [reflexivity|].
  split; [exact Htt | exact Hf].
Qed.

Lemma late_failure_keeps_text_witness :
  translatedText (dispatchAll readyState (handleTranslate readyState brokenStream))
  = "ni hao".
Proof.
  refine (proj1 (proj2 (proj2 (late_failure_keeps_text readyState
            [mkChunk "ni" None; mkChunk " hao" None]
            (ErrorObject "network down") _ _)))).
  - simpl. discriminate.
  - reflexivity.
Defined.

Lemma concatenation_empty (cs : list Chunk) :
  Forall (fun chunk => text chunk = "") cs -> concatenation (map text cs) = "".
Proof. induction 1 as [|c rest Hc _ IH]; simpl; [reflexivity | now rewrite Hc, IH]. Qed.

(** A stream that ends normally without any text (no chunk at all, or
    only chunks with empty text) gives status ['complete'] with an empty
    [translatedText], and [handleDownload] then returns without a file
    in either download mode. *)
Theorem empty_result_completes
  (s : AppState) (cs : list Chunk) :
  fileContent s <> "" ->
  firstBlocked (mkStream cs None) = false ->
  Forall (fun chunk => text chunk = "") cs ->
  let final := dispatchAll s (handleTranslate s (mkStream cs None)) in
  status final = Status.complete
  /\ translatedText final = ""
  /\ error final = None
  /\ downloadContent final = None.
Proof.
  intros Hc Hb Hempty. apply truthy_true in Hc. cbv zeta.
  unfold handleTranslate. rewrite Hc. simpl negb. cbv iota.
  change (dispatchAll s (TRANSLATE :: ?l))
    with (dispatchAll (appReducer s TRANSLATE) l).
  rewrite (streamActions_accepted _ Hb). simpl chunks. simpl failure.
  rewrite dispatchAll_app.
  destruct (dispatch_chunks (appReducer s TRANSLATE) cs) as [_ Htt].
  rewrite (concatenation_empty cs Hempty) in Htt. simpl in Htt.
  pose proof (dispatch_chunks_error (appReducer s TRANSLATE) cs) as He.
  simpl in He.
  unfold downloadContent. simpl. rewrite Htt. simpl.
  split; [reflexivity|]. split; [reflexivity|]. split; [exact He | reflexivity].
Qed.

Lemma empty_result_completes_witness :
  downloadContent
    (dispatchAll completeState (handleTranslate completeState (mkStream [] None)))
  = None.
Proof.
  refine (proj2 (proj2 (proj2 (empty_result_completes completeState [] _ _ _)))).
  - simpl. discriminate.
  - reflexivity.
  - constructor.
Defined.

(** Pressing the swap button of the language selector twice gives the
    state back. *)
Theorem swap_twice_restores (s : AppState) :
  let once := appReducer s (SET_DIRECTION (swap (direction s))) in
  appReducer once (SET_DIRECTION (swap (direction once))) = s.
Proof. destruct s as [st f fc [] tt e an dm im]; reflexivity. Qed.

(** ** File names of the export *)

Lemma splitOn_nonempty (sep : ascii) (s : string) : splitOn sep s <> [].
Proof.
  destruct s as [|c r]; simpl; [discriminate|].
  destruct (Ascii.eqb c sep); [discriminate|].
  destruct (splitOn sep r); discriminate.
Qed.

Lemma splitOn_without (sep : ascii) (s : string) :
  hasChar sep s = false -> splitOn sep s = [s].
Proof.
  induction s as [|c r IH]; simpl; [reflexivity|].
  intros H. apply orb_false_elim in H. destruct H as [Hc Hr].
  rewrite Hc, (IH Hr). reflexivity.
Qed.

Lemma splitOn_last_piece (sep : ascii) (base ext : string) :
  hasChar sep ext = false ->
  splitOn sep (base ++ String sep ext) = (splitOn sep base ++ [ext])%list.
Proof.
  intros Hext. induction base as [|c b IH]; simpl.
  - now rewrite Ascii.eqb_refl, (splitOn_without sep ext Hext).
  - destruct (Ascii.eqb c sep); rewrite IH; [reflexivity|].
    destruct (splitOn sep b) as [|p r] eqn:Hb; [|reflexivity].
    now destruct (splitOn_nonempty sep b).
Qed.

Lemma concat_cons_char (sep : string) (c : ascii) (p : string) (r : list string) :
  String.concat sep (String c p :: r) = String c (String.concat sep (p :: r)).
Proof. destruct r; reflexivity. Qed.

(** [split] followed by [join] on the same separator is the identity. *)
Lemma join_splitOn (sep : ascii) (s : string) :
  String.concat (String sep "") (splitOn sep s) = s.
Proof.
  induction s as [|c r IH]; simpl; [reflexivity|].
  destruct (Ascii.eqb_spec c sep) as [->|Hne].
  - destruct (splitOn sep r) as [|p l] eqn:Hr;
      [now destruct (splitOn_nonempty sep r)|].
    change (String.concat (String sep "") ("" :: p :: l))
      with (String sep (String.concat (String sep "") (p :: l))).
    now rewrite IH.
  - destruct (splitOn sep r) as [|p l] eqn:Hr;
      [now destruct (splitOn_nonempty sep r)|].
    now rewrite concat_cons_char, IH.
Qed.

(** For a file named base.ext, where ext has no dot, the download is
    named base_translated_zh.txt or base_translated_lo.txt by the
    direction; dots inside base are kept. *)
Theorem translated_name_replaces_extension
  (state : AppState) (f : File) (base ext : string) :
  file state = Some f ->
  name f = base ++ "." ++ ext ->
  hasChar dot ext = false ->
  getTranslatedFileName state
  = base ++ "_translated_" ++ languageCode (direction state) ++ ".txt".
Proof.
  intros Hf Hn Hext. unfold getTranslatedFileName. rewrite Hf, Hn.
  change (base ++ "." ++ ext) with (base ++ String dot ext).
  rewrite (splitOn_last_piece dot base ext Hext), removelast_last.
  change "."%string with (String dot "").
  now rewrite join_splitOn.
Qed.

Lemma translated_name_replaces_extension_witness :
  getTranslatedFileName (sampleState "report.v2.docx" DownloadMode.translation)
  = "report.v2_translated_lo.txt".
Proof.
  apply (translated_name_replaces_extension
           (sampleState "report.v2.docx" DownloadMode.translation)
           (mkFile "report.v2.docx") "report.v2" "docx");
    reflexivity.
Defined.

(** A file whose name has no dot loses its whole name: the download is
    named _translated_zh.txt or _translated_lo.txt. *)
Theorem name_without_dot_is_dropped (state : AppState) (f : File) :
  file state = Some f ->
  hasChar dot (name f) = false ->
  getTranslatedFileName state
  = "_translated_" ++ languageCode (direction state) ++ ".txt".
Proof.
  intros Hf Hn. unfold getTranslatedFileName.
  now rewrite Hf, (splitOn_without dot (name f) Hn).
Qed.

Lemma name_without_dot_is_dropped_witness :
  getTranslatedFileName (sampleState "README" DownloadMode.translation)
  = "_translated_lo.txt".
Proof.
  apply (name_without_dot_is_dropped
           (sampleState "README" DownloadMode.translation) (mkFile "README"));
    reflexivity.
Defined.

Lemma translated_name_stem (state : AppState) :
  exists stem, getTranslatedFileName state = stem ++ ".txt".
Proof.
  unfold getTranslatedFileName. destruct (file state) as [f|].
  - exists (String.concat "." (removelast (splitOn dot (name f)))
            ++ "_translated_" ++ languageCode (direction state)).
    now rewrite !append_assoc.
  - now exists "translated_document".
Qed.

(** In bilingual mode the download has the name of the plain
    translation with _bilingual put before its .txt extension, whatever
    the name of the file. *)
Theorem bilingual_name_inserts_suffix (state : AppState) :
  downloadMode state = DownloadMode.bilingual ->
  exists stem,
    getTranslatedFileName state = stem ++ ".txt"
    /\ downloadFileName state = stem ++ "_bilingual.txt".
Proof.
  intros Hm. destruct (translated_name_stem state) as [stem Hstem].
  exists stem. split; [exact Hstem|].
  unfold downloadFileName. rewrite Hm, Hstem.
  change (stem ++ ".txt") with (stem ++ String dot "txt").
  rewrite (splitOn_last_piece dot stem "txt" eq_refl), last_last, removelast_last.
  change "."%string with (String dot "").
  now rewrite join_splitOn.
Qed.

Lemma bilingual_name_inserts_suffix_witness :
  exists stem,
    getTranslatedFileName (sampleState "report.v2.docx" DownloadMode.bilingual)
      = stem ++ ".txt"
    /\ downloadFileName (sampleState "report.v2.docx" DownloadMode.bilingual)
       = stem ++ "_bilingual.txt".
Proof.
  apply (bilingual_name_inserts_suffix
           (sampleState "report.v2.docx" DownloadMode.bilingual)).
  reflexivity.
Defined.

(** ** Paragraph boundaries *)

Lemma throughLastNewline_needs_LF (s : string) :
  hasChar LF s = false -> throughLastNewline s = None.
Proof.
  induction s as [|c r IH]; simpl; [reflexivity|].
  intros H. apply orb_false_elim in H. destruct H as [Hc Hr].
  rewrite (IH Hr), Hc. now destruct (isSpace c).
Qed.

Lemma delimiterLength_needs_LF (s : string) :
  hasChar LF s = false -> delimiterLength s = None.
Proof.
  destruct s as [|c1 r1]; simpl; [reflexivity|].
  intros H. apply orb_false_elim in H. destruct H as [Hc Hr]. rewrite Hc.
  destruct (Ascii.eqb c1 CR); [|reflexivity].
  destruct r1 as [|c2 r2]; [reflexivity|].
  simpl in Hr. apply orb_false_elim in Hr. destruct Hr as [Hc2 _].
  now rewrite Hc2.
Qed.

Lemma splitFrom_without_LF (s piece : string) :
  hasChar LF s = false -> splitFrom s 0 piece = [piece ++ s].
Proof.
  revert piece. induction s as [|c r IH]; intros piece H.
  - simpl. now rewrite append_nil_r.
  - pose proof (delimiterLength_needs_LF _ H) as Hd.
    simpl in H. apply orb_false_elim in H. destruct H as [_ Hr].
    change (splitFrom (String c r) 0 piece)
      with (match delimiterLength (String c r) with
            | Some (S k) => piece :: splitFrom r k ""
            | _ => splitFrom r 0 (piece ++ String c "")
            end).
    rewrite Hd, (IH _ Hr), append_assoc. reflexivity.
Qed.

Lemma splitFrom_plain (a rest piece : string) :
  hasChar LF a = false -> hasChar CR a = false ->
  splitFrom (a ++ rest) 0 piece = splitFrom rest 0 (piece ++ a).
Proof.
  revert piece. induction a as [|c r IH]; intros piece Hlf Hcr.
  - simpl. now rewrite append_nil_r.
  - simpl in Hlf, Hcr.
    apply orb_false_elim in Hlf. destruct Hlf as [Hc1 Hlf].
    apply orb_false_elim in Hcr. destruct Hcr as [Hc2 Hcr].
    change (splitFrom (String c r ++ rest) 0 piece)
      with (match delimiterLength (String c (r ++ rest)) with
            | Some (S k) => piece :: splitFrom (r ++ rest) k ""
            | _ => splitFrom (r ++ rest) 0 (piece ++ String c "")
            end).
    assert (Hd : delimiterLength (String c (r ++ rest)) = None).
    { simpl. now rewrite Hc2, Hc1. }
    rewrite Hd, (IH _ Hlf Hcr), append_assoc. reflexivity.
Qed.

Lemma splitFrom_skip (g b piece : string) :
  splitFrom (g ++ b) (String.length g) piece = splitFrom b 0 piece.
Proof.
  induction g as [|c r IH]; simpl; [|exact IH].
  destruct b; reflexivity.
Qed.

Lemma throughLastNewline_blank (between b : string) :
  allSpace between = true -> startsWithSpace b = false ->
  throughLastNewline (between ++ String LF b) = Some (S (String.length between)).
Proof.
  intros Hw Hb. induction between as [|c r IH]; simpl.
  - assert (Hn : throughLastNewline b = None).
    { destruct b as [|x y]; [reflexivity|]. simpl in *. now rewrite Hb. }
    now rewrite Hn.
  - simpl in Hw. apply andb_prop in Hw. destruct Hw as [Hc Hr].
    now rewrite Hc, (IH Hr).
Qed.

(** A line break that is not followed by a blank line does not end a
    paragraph: a text without line feed is one piece, and so is a text
    with a single line feed. *)
Theorem single_line_break_keeps_piece (a b : string) :
  hasChar LF a = false -> hasChar CR a = false -> hasChar LF b = false ->
  split a = [a] /\ split (a ++ nl ++ b) = [a ++ nl ++ b].
Proof.
  intros Ha Hcr Hb. unfold split. split.
  - now rewrite (splitFrom_without_LF a "" Ha).
  - rewrite (splitFrom_plain a (nl ++ b) "" Ha Hcr). simpl append.
    change (splitFrom (String LF b) 0 a)
      with (match delimiterLength (String LF b) with
            | Some (S k) => a :: splitFrom b k ""
            | _ => splitFrom b 0 (a ++ String LF "")
            end).
    assert (Hd : delimiterLength (String LF b) = None).
    { simpl. now rewrite (throughLastNewline_needs_LF b Hb). }
    rewrite Hd, (splitFrom_without_LF b _ Hb), append_assoc. reflexivity.
Qed.

Lemma single_line_break_keeps_piece_witness :
  split ("Dear Sir," ++ nl ++ "thank you.") = ["Dear Sir," ++ nl ++ "thank you."].
Proof.
  refine (proj2 (single_line_break_keeps_piece "Dear Sir," "thank you." _ _ _));
    reflexivity.
Defined.

Lemma splitFrom_step (c : ascii) (r piece : string) :
  splitFrom (String c r) 0 piece
  = match delimiterLength (String c r) with
    | Some (S k) => piece :: splitFrom r k ""
    | _ => splitFrom r 0 (piece ++ String c "")
    end.
Proof. reflexivity. Qed.

Lemma splitFrom_delimiter (g b piece : string) :
  g <> "" ->
  delimiterLength (g ++ b) = Some (String.length g) ->
  splitFrom (g ++ b) 0 piece = piece :: splitFrom b 0 "".
Proof.
  destruct g as [|c r]; [congruence|]. intros _ Hd.
  change (String c r ++ b) with (String c (r ++ b)) in *.
  change (String.length (String c r)) with (S (String.length r)) in Hd.
  rewrite splitFrom_step, Hd. cbv iota. f_equal.
  apply splitFrom_skip.
Qed.

Lemma blankLines_delimiter (crlf : bool) (between b : string) :
  allSpace between = true -> startsWithSpace b = false ->
  delimiterLength (blankLines crlf between ++ b)
  = Some (String.length (blankLines crlf between)).
Proof.
  intros Hw Hb.
  pose proof (throughLastNewline_blank between b Hw Hb) as Ht.
  assert (Hlen : String.length (between ++ String LF "")
                 = S (String.length between))
    by (rewrite length_append; simpl; lia).
  assert (Hassoc : (between ++ String LF "") ++ b = between ++ String LF b)
    by now rewrite append_assoc.
  destruct crlf.
  - change (blankLines true between ++ b)
      with (String CR (String LF ((between ++ String LF "") ++ b))).
    change (String.length (blankLines true between))
      with (S (S (String.length (between ++ String LF "")))).
    rewrite Hassoc, Hlen.
    change (delimiterLength (String CR (String LF (between ++ String LF b))))
      with (option_map (fun n => S (S n))
              (throughLastNewline (between ++ String LF b))).
    now rewrite Ht.
  - change (blankLines false between ++ b)
      with (String LF ((between ++ String LF "") ++ b)).
    change (String.length (blankLines false between))
      with (S (String.length (between ++ String LF ""))).
    rewrite Hassoc, Hlen.
    change (delimiterLength (String LF (between ++ String LF b)))
      with (option_map S (throughLastNewline (between ++ String LF b))).
    now rewrite Ht.
Qed.

Lemma split_blank_lines (a between b : string) (crlf : bool) :
  hasChar LF a = false -> hasChar CR a = false ->
  allSpace between = true -> startsPlain b = true ->
  split (a ++ blankLines crlf between ++ b) = a :: split b.
Proof.
  intros Ha Hcr Hw Hplain.
  assert (Hb : startsWithSpace b = false).
  { destruct b as [|c r]; [reflexivity|]. simpl in *.
    apply andb_prop in Hplain. now apply negb_true_iff. }
  unfold split.
  rewrite (splitFrom_plain a _ "" Ha Hcr).
  change ("" ++ a) with a.
  apply splitFrom_delimiter.
  - now destruct crlf.
  - now apply blankLines_delimiter.
Qed.

(** A run of blank lines ends a piece: after a text without line
    breaks, a line break, any white space and a last line feed, followed
    by an ASCII character that is not white space or by nothing, the
    first piece
    is that text and the rest is split on its own.  Lines that hold only
    white space and line breaks with carriage return count as blank. *)
Theorem blank_lines_split (a between b : string) (crlf : bool) :
  hasChar LF a = false -> hasChar CR a = false ->
  allSpace between = true -> startsPlain b = true ->
  split (a ++ blankLines crlf between ++ b) = a :: split b.
Proof. exact (split_blank_lines a between b crlf). Qed.

Lemma blank_lines_split_witness :
  split ("Hello" ++ blankLines true "  " ++ "World") = "Hello" :: split "World".
Proof.
  apply (blank_lines_split "Hello" "  " "World" true); reflexivity.
Defined.

(** ** Elapsed time *)

Lemma padStart_two_digits (n : nat) :
  n < 100 -> String.length (padStart 2 "0" (decimal n)) = 2.
Proof.
  intros Hn.
  assert (Hall : forallb (fun k => (String.length (padStart 2 "0" (decimal k)) =? 2)%nat)
                         (seq 0 100) = true) by (vm_compute; reflexivity).
  rewrite forallb_forall in Hall.
  apply Nat.eqb_eq, Hall, in_seq. lia.
Qed.

(** [formatTime] shows m minutes and s seconds (s below 60) as the
    minutes and the seconds, each padded with a zero to two digits,
    around a colon; below 100 minutes the text is five characters
    long. *)
Theorem formatTime_minutes_seconds (m s : nat) :
  s < 60 ->
  formatTime (60 * m + s)
  = padStart 2 "0" (decimal m) ++ ":" ++ padStart 2 "0" (decimal s)
  /\ (m < 100 -> String.length (formatTime (60 * m + s)) = 5).
Proof.
  intros Hs.
  assert (Hq : (60 * m + s) / 60 = m)
    by (symmetry; apply (Nat.div_unique _ 60 m s); lia).
  assert (Hr : (60 * m + s) mod 60 = s)
    by (symmetry; apply (Nat.mod_unique _ 60 m s); lia).
  unfold formatTime. rewrite Hq, Hr. split; [reflexivity|].
  intros Hm. rewrite length_append, (padStart_two_digits m Hm).
  simpl String.length. rewrite (padStart_two_digits s); lia.
Qed.

Lemma formatTime_minutes_seconds_witness :
  formatTime (60 * 7 + 5) = "07:05".
Proof.
  refine (proj1 (formatTime_minutes_seconds 7 5 _)). lia.
Defined.

(** ** Status messages *)

Lemma nextStep_iter (anonymize : bool) (ticks : nat) :
  Nat.iter ticks (nextStep anonymize) 0
  = ticks mod List.length (steps anonymize).
Proof.
  induction ticks as [|k IH].
  - destruct anonymize; reflexivity.
  - simpl Nat.iter. rewrite IH. unfold nextStep.
    rewrite Nat.Div0.add_mod_idemp_l. f_equal. lia.
Qed.

(** After any number of three-second ticks the status message is the
    entry of [steps] at the number of ticks modulo the number of steps,
    so the messages come round in order for ever; there always is a
    message; and the anonymization message is among them exactly when
    anonymization is switched on. *)
Theorem status_message_cycles (anonymize : bool) (ticks : nat) :
  statusMessageAfter anonymize ticks
  = nth_error (steps anonymize) (ticks mod List.length (steps anonymize))
  /\ (exists message, statusMessageAfter anonymize ticks = Some message)
  /\ List.length (steps anonymize) = (if anonymize then 4 else 3)
  /\ (In "Applying anonymization..." (steps anonymize) <-> anonymize = true).
Proof.
  unfold statusMessageAfter, stepMessage. rewrite nextStep_iter.
  split; [reflexivity|]. split; [|split].
  - destruct (nth_error (steps anonymize)
                (ticks mod List.length (steps anonymize))) as [m|] eqn:Hm.
    + now exists m.
    + apply nth_error_None in Hm.
      assert (ticks mod List.length (steps anonymize)
              < List.length (steps anonymize)).
      { apply Nat.mod_upper_bound. destruct anonymize; discriminate. }
      lia.
  - destruct anonymize; reflexivity.
  - destruct anonymize; simpl; split; intros H; try reflexivity.
    + tauto.
    + destruct H as [H|[H|[H|[]]]]; discriminate H.
    + discriminate H.
Qed.

(** ** The service client *)

Lemma collectPieces_callback (message : string) (pieces : list (option string)) :
  forall full,
    exists deltas,
      collectPieces message Callback pieces full
      = (inr (full ++ concatenation (map pieceText pieces)), deltas)
      /\ Forall (fun delta => delta <> "") deltas
      /\ concatenation deltas = concatenation (map pieceText pieces).
Proof.
  induction pieces as [|piece rest IH]; intros full.
  - exists []. simpl. rewrite append_nil_r. repeat split. constructor.
  - destruct piece as [p|]; [destruct (truthy p) eqn:Hp|].
    + destruct (IH (full ++ p)) as (deltas & Hrun & Hne & Hcat).
      exists (p :: deltas). simpl. rewrite Hp, Hrun.
      split; [now rewrite append_assoc|].
      split; [constructor; [now apply truthy_true | exact Hne]|].
      now rewrite Hcat.
    + apply truthy_false in Hp.
      destruct (IH full) as (deltas & Hrun & Hne & Hcat).
      exists deltas. simpl. rewrite Hp in *. simpl. auto.
    + destruct (IH full) as (deltas & Hrun & Hne & Hcat).
      exists deltas. simpl. auto.
Qed.

Lemma collectPieces_no_callback (message : string) (pieces : list (option string)) :
  forall full,
    collectPieces message NoCallback pieces full
    = (inr (full ++ concatenation (map pieceText pieces)), []).
Proof.
  induction pieces as [|piece rest IH]; intros full; simpl.
  - now rewrite append_nil_r.
  - destruct piece as [p|]; [destruct (truthy p) eqn:Hp|]; simpl.
    + now rewrite IH, append_assoc.
    + apply truthy_false in Hp. subst p. apply IH.
    + apply IH.
Qed.

Lemma collectPieces_not_callable (message : string) (pieces : list (option string)) :
  forall full,
    collectPieces message NotCallable pieces full
    = if concatenation (map pieceText pieces) =? ""
      then (inr full, [])
      else (inl (ErrorObject message), []).
Proof.
  induction pieces as [|piece rest IH]; intros full; simpl; [reflexivity|].
  destruct piece as [p|]; [destruct (truthy p) eqn:Hp|]; simpl.
  - destruct p as [|c r]; [discriminate Hp | reflexivity].
  - apply truthy_false in Hp. subst p. apply IH.
  - apply IH.
Qed.

(** What [translateDocumentStream] does with its third argument.  Given
    a function, it hands it no empty piece, the pieces handed out make,
    in order, the text of all pieces of the stream, and the promise
    resolves with that text when the stream ends normally and rejects
    with what was thrown when it fails.  Given nothing, it hands out
    nothing and resolves or rejects in the same way.  Given a value that
    is neither, as the boolean the component passes, it hands out
    nothing and rejects with the [TypeError] as soon as the stream has a
    non-empty piece; when the stream has none, it behaves as if given
    nothing. *)
Theorem service_deltas_make_result
  (message : string) (onDelta : OnDelta)
  (pieces : list (option string)) (fail : option Thrown) :
  let result := fst (translateDocumentStream message onDelta pieces fail) in
  let deltas := snd (translateDocumentStream message onDelta pieces fail) in
  let whole := concatenation (map pieceText pieces) in
  let settled := match fail with
                 | Some err => inl err
                 | None => inr whole
                 end in
  match onDelta with
  | Callback =>
      Forall (fun delta => delta <> "") deltas
      /\ concatenation deltas = whole
      /\ result = settled
  | NoCallback => deltas = [] /\ result = settled
  | NotCallable =>
      deltas = []
      /\ result = if whole =? "" then settled else inl (ErrorObject message)
  end.
Proof.
  cbv zeta. unfold translateDocumentStream. destruct onDelta.
  - rewrite collectPieces_no_callback. simpl. now destruct fail.
  - destruct (collectPieces_callback message pieces "") as (deltas & -> & Hne & Hcat).
    simpl. destruct fail; simpl; auto.
  - rewrite collectPieces_not_callable.
    destruct (concatenation (map pieceText pieces) =? "") eqn:He.
    + apply String.eqb_eq in He. rewrite He. now destruct fail.
    + simpl. auto.
Qed.

(** ** The file parser *)

Section FileParserProperties.

Variable toLowerCase : string -> string.
Variable Buffer : Type.
Variable fileType : File -> string.
Variable arrayBuffer : File -> Thrown + Buffer.
Variable getDocument : Buffer -> Thrown + list (list PdfItem).
Variable extractRawText : Buffer -> Thrown + string.
Variable decode : Buffer -> string.

Local Abbreviation parse :=
  (parseFileContent toLowerCase Buffer fileType arrayBuffer getDocument
                    extractRawText decode).
Local Abbreviation select :=
  (handleFileSelect toLowerCase Buffer fileType arrayBuffer getDocument
                    extractRawText decode).

(** A file whose extension is doc in any letter case, or whose whole
    name is that when the name has no dot, is rejected whatever it
    holds, and selecting it ends in status ['error'] with the message of
    the parser, the file kept and no content. *)
Theorem doc_files_are_rejected (s : AppState) (f : File) (buffer : Buffer) :
  fileExtensionOf toLowerCase f = "doc" ->
  arrayBuffer f = inr buffer ->
  let message :=
    "Failed to parse file: .doc files are not supported. Please save as .docx or .pdf." in
  parse f = inl (ErrorObject message)
  /\ status (dispatchAll s (select f)) = Status.error
  /\ error (dispatchAll s (select f)) = Some message
  /\ file (dispatchAll s (select f)) = Some f
  /\ fileContent (dispatchAll s (select f)) = "".
Proof.
  intros Hext Hbuf. cbv zeta.
  assert (Hp : parse f
               = inl (ErrorObject
                   "Failed to parse file: .doc files are not supported. Please save as .docx or .pdf.")).
  { unfold parseFileContent, parseByExtension. rewrite Hext, Hbuf. reflexivity. }
  split; [exact Hp|]. unfold handleFileSelect. rewrite Hp. simpl. repeat split.
Qed.

(** A file whose name ends with a dot is rejected before its bytes are
    read, with a message that is not wrapped. *)
Theorem name_ending_with_dot_is_rejected (f : File) (base : string) :
  toLowerCase "" = "" ->
  name f = base ++ "." ->
  parse f = inl (ErrorObject "Could not determine file type.").
Proof.
  intros Hlow Hn. unfold parseFileContent, fileExtensionOf. rewrite Hn.
  change (base ++ ".") with (base ++ String dot "").
  rewrite (splitOn_last_piece dot base "" eq_refl), last_last, Hlow.
  reflexivity.
Qed.

(** Whenever the bytes of the file can be read, a failure of
    [parseFileContent] is an [Error] whose message is one of three
    kinds, so [handleFileSelect] shows the parser's message and never
    its own fallback. *)
Theorem parse_failures_are_errors (f : File) (buffer : Buffer) (err : Thrown) :
  arrayBuffer f = inr buffer ->
  parse f = inl err ->
  exists message,
    err = ErrorObject message
    /\ (message = "Could not determine file type."
        \/ message = "An unknown error occurred while parsing the file."
        \/ exists inner, message = "Failed to parse file: " ++ inner)
    /\ select f = [START_PARSING f; SET_ERROR message].
Proof.
  intros Hbuf Hp. unfold handleFileSelect. rewrite Hp.
  unfold parseFileContent in Hp.
  destruct (negb (truthy (fileExtensionOf toLowerCase f))).
  - injection Hp as <-. eexists. split; [reflexivity|]. split; [now left | reflexivity].
  - rewrite Hbuf in Hp. unfold rethrowParse in Hp.
    destruct (parseByExtension Buffer fileType getDocument extractRawText decode
                f (fileExtensionOf toLowerCase f) buffer) as [[inner|]|content].
    + injection Hp as <-. eexists. split; [reflexivity|].
      split; [right; right; now exists inner | reflexivity].
    + injection Hp as <-. eexists. split; [reflexivity|].
      split; [right; now left | reflexivity].
    + discriminate Hp.
Qed.

(** A file with an extension the parser does not know is read as text
    when the browser reports a text type for it, and is otherwise
    rejected with a message that names the extension. *)
Theorem unknown_extension (f : File) (buffer : Buffer) :
  let extension := fileExtensionOf toLowerCase f in
  extension <> "" ->
  extension <> "pdf" -> extension <> "docx" -> extension <> "txt" ->
  extension <> "md" -> extension <> "doc" ->
  arrayBuffer f = inr buffer ->
  parse f
  = if String.prefix "text/" (fileType f)
    then inr (decode buffer)
    else inl (ErrorObject
                ("Failed to parse file: Unsupported file type: ." ++ extension
                 ++ ". Please upload a PDF, DOCX, or text file.")).
Proof.
  cbv zeta. intros Hne Hpdf Hdocx Htxt Hmd Hdoc Hbuf.
  unfold parseFileContent, parseByExtension.
  apply truthy_true in Hne. rewrite Hne, Hbuf. simpl negb. cbv iota.
  apply String.eqb_neq in Hpdf, Hdocx, Htxt, Hmd, Hdoc.
  rewrite Hpdf, Hdocx, Htxt, Hmd, Hdoc. simpl orb. cbv iota.
  now destruct (String.prefix "text/" (fileType f)).
Qed.

(** Selecting a file that parses puts the component in status
    ['ready'] with the parsed text as content, the file recorded, no
    translation and no error, and the direction and the anonymize
    switch it had before, whatever state it was in. *)
Theorem selected_file_becomes_ready (s : AppState) (f : File) (content : string) :
  parse f = inr content ->
  let s' := dispatchAll s (select f) in
  status s' = Status.ready
  /\ fileContent s' = content
  /\ file s' = Some f
  /\ translatedText s' = ""
  /\ error s' = None
  /\ direction s' = direction s
  /\ anonymize s' = anonymize s.
Proof.
  intros Hp. cbv zeta. unfold handleFileSelect. rewrite Hp. simpl. repeat split.
Qed.

End FileParserProperties.

Lemma doc_files_are_rejected_witness :
  parseFileContent asciiLower string sampleType sampleBuffer samplePdf
    sampleDocx sampleDecode (mkFile "Contract.DOC")
  = inl (ErrorObject
      "Failed to parse file: .doc files are not supported. Please save as .docx or .pdf.").
Proof.
  refine (proj1 (doc_files_are_rejected asciiLower string sampleType sampleBuffer
                   samplePdf sampleDocx sampleDecode initialState
                   (mkFile "Contract.DOC") "bytes" _ _));
    reflexivity.
Defined.

Lemma name_ending_with_dot_is_rejected_witness :
  parseFileContent asciiLower string sampleType sampleBuffer samplePdf
    sampleDocx sampleDecode (mkFile "notes.")
  = inl (ErrorObject "Could not determine file type.").
Proof.
  apply (name_ending_with_dot_is_rejected asciiLower string sampleType
           sampleBuffer samplePdf sampleDocx sampleDecode
           (mkFile "notes.") "notes");
    reflexivity.
Defined.

Lemma parse_failures_are_errors_witness :
  exists message,
    ErrorObject
      "Failed to parse file: Unsupported file type: .xls. Please upload a PDF, DOCX, or text file."
    = ErrorObject message
    /\ (message = "Could not determine file type."
        \/ message = "An unknown error occurred while parsing the file."
        \/ exists inner, message = "Failed to parse file: " ++ inner)
    /\ handleFileSelect asciiLower string sampleType sampleBuffer samplePdf
         sampleDocx sampleDecode (mkFile "table.XLS")
       = [START_PARSING (mkFile "table.XLS"); SET_ERROR message].
Proof.
  apply (parse_failures_are_errors asciiLower string sampleType sampleBuffer
           samplePdf sampleDocx sampleDecode (mkFile "table.XLS") "bytes");
    reflexivity.
Defined.

Lemma unknown_extension_witness :
  parseFileContent asciiLower string sampleType sampleBuffer samplePdf
    sampleDocx sampleDecode (mkFile "table.XLS")
  = inl (ErrorObject
      "Failed to parse file: Unsupported file type: .xls. Please upload a PDF, DOCX, or text file.").
Proof.
  apply (unknown_extension asciiLower string sampleType sampleBuffer samplePdf
           sampleDocx sampleDecode (mkFile "table.XLS") "bytes");
    try discriminate; reflexivity.
Defined.

Lemma selected_file_becomes_ready_witness :
  fileContent
    (dispatchAll completeState
       (handleFileSelect asciiLower string sampleType sampleBuffer samplePdf
          sampleDocx sampleDecode (mkFile "scan.pdf")))
  = "page  one" ++ nl ++ nl ++ "page two".
Proof.
  refine (proj1 (proj2 (selected_file_becomes_ready asciiLower string sampleType
            sampleBuffer samplePdf sampleDocx sampleDecode completeState
            (mkFile "scan.pdf") _ _))).
  reflexivity.
Defined.

(** ** Pages, blank texts and file selection *)

Lemma plainLine_parts (s : string) :
  plainLine s = true ->
  s <> "" /\ hasChar LF s = false /\ hasChar CR s = false /\ startsPlain s = true.
Proof.
  unfold plainLine. intros H.
  apply andb_prop in H. destruct H as [H Hp].
  apply andb_prop in H. destruct H as [H Hcr].
  apply andb_prop in H. destruct H as [Hne Hlf].
  apply negb_true_iff in Hne, Hlf, Hcr. apply String.eqb_neq in Hne. auto.
Qed.

Lemma startsPlain_append (s rest : string) :
  s <> "" -> startsPlain (s ++ rest) = startsPlain s.
Proof. destruct s; [congruence | reflexivity]. Qed.

Lemma concat_cons2 (sep x y : string) (l : list string) :
  String.concat sep (x :: y :: l) = x ++ sep ++ String.concat sep (y :: l).
Proof. reflexivity. Qed.

(** The text the parser makes of a PDF joins the pages with a blank
    line, and the export splits it at those blank lines again: when
    every page is a plain line, the pieces are the pages. *)
Theorem joined_pages_split_back (pages : list string) :
  pages <> [] ->
  forallb plainLine pages = true ->
  split (String.concat (nl ++ nl) pages) = pages.
Proof.
  intros Hne Hall. induction pages as [|p rest IH]; [congruence|].
  simpl in Hall. apply andb_prop in Hall. destruct Hall as [Hp Hrest].
  destruct (plainLine_parts p Hp) as (_ & Hlf & Hcr & _).
  destruct rest as [|q rest'].
  - simpl. unfold split. now rewrite (splitFrom_without_LF p "" Hlf).
  - rewrite concat_cons2.
    change (nl ++ nl) with (blankLines false "").
    rewrite split_blank_lines; try assumption; try reflexivity.
    + f_equal. apply IH; [discriminate | exact Hrest].
    + simpl in Hrest. apply andb_prop in Hrest. destruct Hrest as [Hq _].
      destruct (plainLine_parts q Hq) as (Hqne & _ & _ & Hqs).
      destruct rest' as [|r rest'']; [exact Hqs|].
      rewrite concat_cons2. now rewrite startsPlain_append.
Qed.

Lemma joined_pages_split_back_witness :
  split (String.concat (nl ++ nl) ["page one"; "page two"; "page three"])
  = ["page one"; "page two"; "page three"].
Proof.
  apply (joined_pages_split_back ["page one"; "page two"; "page three"]).
  - discriminate.
  - reflexivity.
Defined.

Lemma trimStart_allSpace (s : string) : allSpace s = true -> trimStart s = "".
Proof.
  induction s as [|c r IH]; simpl; [reflexivity|].
  intros H. apply andb_prop in H. destruct H as [Hc Hr]. now rewrite Hc, IH.
Qed.

Lemma trim_allSpace (s : string) : allSpace s = true -> trim s = "".
Proof. intros H. unfold trim. now rewrite (trimStart_allSpace s H). Qed.

Lemma allSpace_append (a b : string) :
  allSpace (a ++ b) = allSpace a && allSpace b.
Proof.
  induction a as [|c r IH]; simpl; [reflexivity|].
  now rewrite IH, andb_assoc.
Qed.

Lemma splitFrom_allSpace (s : string) :
  allSpace s = true ->
  forall skip piece,
    allSpace piece = true ->
    Forall (fun p => allSpace p = true) (splitFrom s skip piece).
Proof.
  induction s as [|c r IH]; intros Hs skip piece Hp.
  - simpl. now constructor.
  - simpl in Hs. apply andb_prop in Hs. destruct Hs as [Hc Hr].
    destruct skip as [|k]; [|exact (IH Hr k piece Hp)].
    change (splitFrom (String c r) 0 piece)
      with (match delimiterLength (String c r) with
            | Some (S k) => piece :: splitFrom r k ""
            | _ => splitFrom r 0 (piece ++ String c "")
            end).
    assert (Hpc : allSpace (piece ++ String c "") = true).
    { rewrite allSpace_append, Hp. simpl. now rewrite Hc. }
    destruct (delimiterLength (String c r)) as [[|k]|].
    + exact (IH Hr 0 _ Hpc).
    + constructor; [exact Hp | exact (IH Hr k "" eq_refl)].
    + exact (IH Hr 0 _ Hpc).
Qed.

(** A text that holds nothing but white space has no paragraph, however
    many line breaks it has. *)
Theorem blank_text_has_no_paragraphs (content : string) :
  allSpace content = true -> paragraphs content = [].
Proof.
  intros H. unfold paragraphs, split.
  pose proof (splitFrom_allSpace content H 0 "" eq_refl) as Hall.
  induction Hall as [|p rest Hp _ IH]; [reflexivity|].
  simpl. now rewrite (trim_allSpace p Hp).
Qed.

Lemma blank_text_has_no_paragraphs_witness :
  paragraphs (" " ++ nl ++ nl ++ String CR nl ++ "  " ++ nl) = [].
Proof.
  apply (blank_text_has_no_paragraphs (" " ++ nl ++ nl ++ String CR nl ++ "  " ++ nl)).
  reflexivity.
Defined.

Section FileSelection.

Variable toLowerCase : string -> string.
Variable Buffer : Type.
Variable fileType : File -> string.
Variable arrayBuffer : File -> Thrown + Buffer.
Variable getDocument : Buffer -> Thrown + list (list PdfItem).
Variable extractRawText : Buffer -> Thrown + string.
Variable decode : Buffer -> string.

(** A run of [handleFileSelect] is a path of the component: when the
    upload area is shown and enabled in a reachable configuration with
    nothing pending, the state after the actions the handler dispatches
    is reachable, again with nothing pending. *)
Theorem handleFileSelect_run_reachable (s : AppState) (f : File) :
  reachable (mkConfig s []) ->
  showMainView s = false ->
  inputMode s = InputMode.upload ->
  isDisabled s = false ->
  reachable
    (mkConfig
       (dispatchAll s
          (handleFileSelect toLowerCase Buffer fileType arrayBuffer getDocument
             extractRawText decode f))
       []).
Proof.
  intros Hr Hv Hm Hen. unfold handleFileSelect.
  assert (Hstart : reachable (mkConfig (appReducer s (START_PARSING f)) [ParseTask f])).
  { eapply reachable_step; [exact Hr|]. exact (step_file_select s [] f Hv Hm Hen). }
  destruct (parseFileContent toLowerCase Buffer fileType arrayBuffer getDocument
              extractRawText decode f) as [err|content].
  - eapply reachable_step; [exact Hstart|].
    exact (step_parse_failure _ [] f [] err).
  - eapply reachable_step; [exact Hstart|].
    exact (step_parse_success _ [] f [] content).
Qed.

End FileSelection.

Lemma handleFileSelect_run_reachable_witness :
  reachable
    (mkConfig
       (dispatchAll afterReset
          (handleFileSelect asciiLower string sampleType sampleBuffer samplePdf
             sampleDocx sampleDecode (mkFile "scan.pdf")))
       []).
Proof.
  apply (handleFileSelect_run_reachable asciiLower string sampleType sampleBuffer
           samplePdf sampleDocx sampleDecode afterReset (mkFile "scan.pdf")).
  - exact afterReset_reachable.
  - reflexivity.
  - reflexivity.
  - reflexivity.
Defined.
